(** * s3-utils: file-id fetcher, selective deleter and prefix deleter

    A shallow embedding of the three scripts of the repository

      - [W-ASAP Loculus/fetch_file_ids.py]     (the Fetcher),
      - [W-ASAP Loculus/delete_by_file_ids.py] (the Selective Deleter),
      - [delete_s3_files.py]                   (the Prefix Deleter),

    together with the properties of their specification.

    Python values coming out of [json.loads] are a data type [pyval];
    exceptions are an error monad [except]; the scripts' effects
    (printing, the confirmation prompt, the object store) are an event
    trace and an explicit store state. *)

From Stdlib Require Import ZArith QArith String Ascii List Lia DecimalString.
From stdpp Require Import base list strings gmap sorting.
Close Scope Q_scope.
Open Scope string_scope.
Open Scope list_scope.

(* ===================================================================== *)
(** * Python values *)
(* ===================================================================== *)

(** A Python [float].  A finite double is kept as the rational it denotes
    (the sign of zero is not tracked: no modelled operation observes it). *)
Inductive pyfloat :=
| FNan
| FInf (negative : bool)
| FFin (q : Q).

(** The values [json.loads] and [json.load] produce.  A [dict] is kept in
    insertion order, as Python keeps it. *)
#[warnings="-register-all"] Inductive pyval :=
| PNone
| PBool (b : bool)
| PInt (z : Z)
| PFloat (f : pyfloat)
| PStr (s : string)
| PList (l : list pyval)
| PDict (d : list (pyval * pyval)).

(** The exceptions the scripts can meet. *)
Inductive pyexn :=
| TypeError
| AttributeError
| EOFError
| OSError
| JSONDecodeError
| ValueError
| RecursionError
| ClientError (code : string)
| ParamValidationError.

(** A computation that returns or raises. *)
Inductive except (A : Type) :=
| Ok (a : A)
| Raise (e : pyexn).
Arguments Ok {A} a.
Arguments Raise {A} e.

Definition bind {A B} (m : except A) (k : A -> except B) : except B :=
  match m with
  | Ok a => k a
  | Raise e => Raise e
  end.

Notation "x <-! m ; k" := (bind m (fun x => k))
  (at level 100, m at next level, right associativity,
   format "x  <-!  m ;  '//' k").

(** [bool(v)]: Python's truth value. *)
Definition py_truthy (v : pyval) : bool :=
  match v with
  | PNone => false
  | PBool b => b
  | PInt z => negb (z =? 0)%Z
  | PFloat FNan => true
  | PFloat (FInf _) => true
  | PFloat (FFin q) => negb (Qeq_bool q 0)
  | PStr s => negb (String.eqb s "")
  | PList l => match l with [] => false | _ => true end
  | PDict d => match d with [] => false | _ => true end
  end.

(** ** Dictionary keys

    Hashable values, up to Python's key equality: [True == 1 == 1.0],
    strings are equal to equal strings only, [None] to itself.  The one
    NaN [json] ever produces is the module constant, which a dict finds
    again by identity.  Lists and dicts are unhashable. *)
Inductive hkey :=
| KNone
| KNum (q : Q)
| KInf (negative : bool)
| KNan
| KStr (s : string).

Definition key_of (v : pyval) : option hkey :=
  match v with
  | PNone => Some KNone
  | PBool b => Some (KNum (inject_Z (if b then 1 else 0)))
  | PInt z => Some (KNum (inject_Z z))
  | PFloat FNan => Some KNan
  | PFloat (FInf n) => Some (KInf n)
  | PFloat (FFin q) => Some (KNum (Qred q))
  | PStr s => Some (KStr s)
  | PList _ => None
  | PDict _ => None
  end.

#[global] Instance Q_eq_dec : EqDecision Q.
Proof. solve_decision. Defined.

#[global] Instance hkey_eq_dec : EqDecision hkey.
Proof. solve_decision. Defined.

Definition py_key_eqb (a b : pyval) : bool := bool_decide (key_of a = key_of b).

Definition hashable (v : pyval) : bool :=
  match key_of v with Some _ => true | None => false end.

(** [d.get(k)] on the entries of a dict. *)
Fixpoint dict_lookup (k : pyval) (d : list (pyval * pyval)) : option pyval :=
  match d with
  | [] => None
  | (k', v) :: d' => if py_key_eqb k' k then Some v else dict_lookup k d'
  end.

(** [d[k] = v] on the entries of a dict: an existing key keeps its place
    (and its key object), a new one goes last. *)
Fixpoint dict_store (k v : pyval) (d : list (pyval * pyval)) : list (pyval * pyval) :=
  match d with
  | [] => [(k, v)]
  | (k', v') :: d' =>
      if py_key_eqb k' k then (k', v) :: d' else (k', v') :: dict_store k v d'
  end.

(** [d[k] = v], raising [TypeError] on an unhashable key. *)
Definition py_setitem (d : list (pyval * pyval)) (k v : pyval)
  : except (list (pyval * pyval)) :=
  if hashable k then Ok (dict_store k v d) else Raise TypeError.

(** [o.get(name, default)]: only a dict has the method. *)
Definition py_get (o : pyval) (name : string) (default : pyval) : except pyval :=
  match o with
  | PDict d =>
      Ok (match dict_lookup (PStr name) d with Some v => v | None => default end)
  | _ => Raise AttributeError
  end.

(** The one-character strings a [for] loop over a [str] yields. *)
Fixpoint chars (s : string) : list pyval :=
  match s with
  | EmptyString => []
  | String c s' => PStr (String c EmptyString) :: chars s'
  end.

(** [iter(v)], run to the end: the elements of a list, the characters of a
    string, the keys of a dict; anything else is not iterable. *)
Definition py_iter (v : pyval) : except (list pyval) :=
  match v with
  | PList l => Ok l
  | PStr s => Ok (chars s)
  | PDict d => Ok (map fst d)
  | _ => Raise TypeError
  end.

(** [len(v)]. *)
Definition py_len (v : pyval) : except nat :=
  match v with
  | PList l => Ok (length l)
  | PStr s => Ok (String.length s)
  | PDict d => Ok (length d)
  | _ => Raise TypeError
  end.

(* ===================================================================== *)
(** * The Fetcher: [fetch_file_ids.py] *)
(* ===================================================================== *)

Section Fetcher.

(** [json.loads] on a [str]: the decoded value, or the exception it
    raises -- a [JSONDecodeError] on text that is not JSON, but also a
    [RecursionError] on text nested too deeply or a plain [ValueError] on
    an integer of too many digits.  The decoder is the standard library's,
    not this repository's: the development is parametric in it. *)
Context (json_loads : string -> except pyval).

(** [except (json.JSONDecodeError, TypeError)]: the two classes the
    handler of [parse_file_field] names; no other exception here is a
    subclass of either. *)
Definition caught (e : pyexn) : bool :=
  match e with
  | JSONDecodeError | TypeError => true
  | _ => false
  end.

(** [parse_file_field]: a falsy field gives [[]]; otherwise
    [json.loads(field_value)], where a [JSONDecodeError] and a [TypeError]
    (as a value that is not a string raises) give [[]], and any other
    exception of the decoder goes on to the caller. *)
Definition parse_file_field (field_value : pyval) : except pyval :=
  if negb (py_truthy field_value) then Ok (PList [])
  else
    match field_value with
    | PStr s =>
        match json_loads s with
        | Ok v => Ok v
        | Raise e => if caught e then Ok (PList []) else Raise e
        end
    | _ => Ok (PList [])
    end.

(** [[f.get("fileId") for f in files if f.get("fileId")]] over the
    elements [files] yields. *)
Fixpoint file_id_list (files : list pyval) : except (list pyval) :=
  match files with
  | [] => Ok []
  | f :: files' =>
      fid <-! py_get f "fileId" PNone;
      rest <-! file_id_list files';
      Ok (if py_truthy fid then fid :: rest else rest)
  end.

Definition file_ids_of (files : pyval) : except pyval :=
  fs <-! py_iter files;
  ids <-! file_id_list fs;
  Ok (PList ids).

(** The entry a record stores: [None] when the record is skipped
    ([continue]), else the key and the value of [result[key] = value]. *)
Definition record_entry (record : pyval) : except (option (pyval * pyval)) :=
  metadata <-! py_get record "metadata" (PDict []);
  submission_id <-! py_get metadata "submissionId" PNone;
  if negb (py_truthy submission_id) then Ok None
  else
    na <-! py_get metadata "nucleotideAlignment" PNone;
    alignment_files <-! parse_file_field na;
    sr <-! py_get metadata "siloReads" PNone;
    silo_files <-! parse_file_field sr;
    a_ids <-! file_ids_of alignment_files;
    s_ids <-! file_ids_of silo_files;
    Ok (Some (submission_id,
              PDict [(PStr "nucleotideAlignment", a_ids);
                     (PStr "siloReads", s_ids)])).

(** One turn of the loop of [extract_file_ids]. *)
Definition extract_step (result : list (pyval * pyval)) (record : pyval)
  : except (list (pyval * pyval)) :=
  e <-! record_entry record;
  match e with
  | None => Ok result
  | Some (submission_id, ids) => py_setitem result submission_id ids
  end.

Fixpoint extract_loop (result : list (pyval * pyval)) (records : list pyval)
  : except (list (pyval * pyval)) :=
  match records with
  | [] => Ok result
  | record :: records' =>
      result' <-! extract_step result record;
      extract_loop result' records'
  end.

(** [extract_file_ids]: the entries of the returned dict. *)
Definition extract_file_ids (records : list pyval) : except (list (pyval * pyval)) :=
  extract_loop [] records.

End Fetcher.

(* ===================================================================== *)
(** * A reference JSON decoder *)
(* ===================================================================== *)

(** A decoder for the fragment of JSON made of [null], [true], [false],
    integers, strings without escapes, arrays and objects, on which it
    answers as [json.loads] does: a repeated object key keeps its first
    place and its last value, text that is not JSON raises
    [JSONDecodeError], and an integer of more than 4300 digits raises
    [ValueError] (the interpreter's default limit on the conversion).  The
    nesting of the text is taken to stay below the interpreter's recursion
    limit, where [json.loads] raises [RecursionError].  It serves the
    concrete examples below, all written in that fragment; the general
    results hold for every decoder. *)
Module Json.

Definition dquote : ascii := ascii_of_nat 34.

(** The text after an opening double quote, if the text starts with one. *)
Definition unquote (s : string) : option string :=
  match s with
  | String c s' => if Ascii.eqb c dquote then Some s' else None
  | EmptyString => None
  end.

Definition is_ws (c : ascii) : bool :=
  match nat_of_ascii c with
  | 32 | 9 | 10 | 13 => true
  | _ => false
  end.

Fixpoint skip_ws (s : string) : string :=
  match s with
  | String c s' => if is_ws c then skip_ws s' else s
  | EmptyString => s
  end.

(** The text after the word [p], where the text starts with it. *)
Fixpoint strip_prefix (p s : string) : except string :=
  match p, s with
  | EmptyString, _ => Ok s
  | String a p', String b s' =>
      if Ascii.eqb a b then strip_prefix p' s' else Raise JSONDecodeError
  | String _ _, EmptyString => Raise JSONDecodeError
  end.

Definition digit_of (c : ascii) : option Z :=
  let n := nat_of_ascii c in
  if (48 <=? n)%nat && (n <=? 57)%nat then Some (Z.of_nat (n - 48)) else None.

Fixpoint scan_digits (s : string) (acc : Z) : Z * string :=
  match s with
  | String c s' =>
      match digit_of c with
      | Some d => scan_digits s' (10 * acc + d)%Z
      | None => (acc, s)
      end
  | EmptyString => (acc, s)
  end.

(** [sys.get_int_max_str_digits()], by default. *)
Definition max_str_digits : nat := 4300.

(** [0|[1-9][0-9]*], refusing a fraction or an exponent after it; the
    digits are then converted, which raises on more than the limit. *)
Definition scan_int (s : string) : except (Z * string) :=
  p <-! match s with
        | String c s' =>
            match digit_of c with
            | Some 0%Z => Ok (0%Z, s')
            | Some d => Ok (scan_digits s' d)
            | None => Raise JSONDecodeError
            end
        | EmptyString => Raise JSONDecodeError
        end;
  match p.2 with
  | String "." _ | String "e" _ | String "E" _ => Raise JSONDecodeError
  | rest =>
      if (max_str_digits <? String.length s - String.length rest)%nat
      then Raise ValueError
      else Ok (p.1, rest)
  end.

(** The characters up to the closing quote; no escapes, no control
    characters. *)
Fixpoint scan_string (s : string) : except (string * string) :=
  match s with
  | EmptyString => Raise JSONDecodeError
  | String c s' =>
      if Ascii.eqb c dquote then Ok (EmptyString, s')
      else if Ascii.eqb c "\" then Raise JSONDecodeError
      else if (nat_of_ascii c <? 32)%nat then Raise JSONDecodeError
      else p <-! scan_string s'; Ok (String c p.1, p.2)
  end.

Definition make_dict (members : list (pyval * pyval)) : pyval :=
  PDict (foldl (fun d '(k, v) => dict_store k v d) [] members).

Fixpoint decode_value (fuel : nat) (s : string) : except (pyval * string) :=
  match fuel with
  | O => Raise JSONDecodeError
  | S fuel' =>
      match unquote s with
      | Some s' => p <-! scan_string s'; Ok (PStr p.1, p.2)
      | None =>
      match s with
      | String "n" _ => rest <-! strip_prefix "null" s; Ok (PNone, rest)
      | String "t" _ => rest <-! strip_prefix "true" s; Ok (PBool true, rest)
      | String "f" _ => rest <-! strip_prefix "false" s; Ok (PBool false, rest)
      | String "[" s' =>
          match skip_ws s' with
          | String "]" rest => Ok (PList [], rest)
          | s1 => p <-! decode_elems fuel' s1; Ok (PList p.1, p.2)
          end
      | String "{" s' =>
          match skip_ws s' with
          | String "}" rest => Ok (PDict [], rest)
          | s1 => p <-! decode_members fuel' s1; Ok (make_dict p.1, p.2)
          end
      | String "-" s' => p <-! scan_int s'; Ok (PInt (- p.1), p.2)
      | _ => p <-! scan_int s; Ok (PInt p.1, p.2)
      end
      end
  end
with decode_elems (fuel : nat) (s : string) : except (list pyval * string) :=
  match fuel with
  | O => Raise JSONDecodeError
  | S fuel' =>
      p <-! decode_value fuel' s;
      match skip_ws p.2 with
      | String "," r' =>
          q <-! decode_elems fuel' (skip_ws r'); Ok (p.1 :: q.1, q.2)
      | String "]" rest => Ok ([p.1], rest)
      | _ => Raise JSONDecodeError
      end
  end
with decode_members (fuel : nat) (s : string)
  : except (list (pyval * pyval) * string) :=
  match fuel with
  | O => Raise JSONDecodeError
  | S fuel' =>
      match unquote s with
      | Some s' =>
          k <-! scan_string s';
          match skip_ws k.2 with
          | String ":" r1 =>
              p <-! decode_value fuel' (skip_ws r1);
              match skip_ws p.2 with
              | String "," r3 =>
                  q <-! decode_members fuel' (skip_ws r3);
                  Ok ((PStr k.1, p.1) :: q.1, q.2)
              | String "}" rest => Ok ([(PStr k.1, p.1)], rest)
              | _ => Raise JSONDecodeError
              end
          | _ => Raise JSONDecodeError
          end
      | None => Raise JSONDecodeError
      end
  end.

Definition loads (s : string) : except pyval :=
  p <-! decode_value (2 * String.length s + 2) (skip_ws s);
  match skip_ws p.2 with
  | EmptyString => Ok p.1
  | _ => Raise JSONDecodeError
  end.

(** Writing JSON text: a string literal, an array, an object. *)
Definition quoted (s : string) : string :=
  String dquote (s +:+ String dquote EmptyString).

Fixpoint join (sep : string) (parts : list string) : string :=
  match parts with
  | [] => EmptyString
  | [p] => p
  | p :: parts' => p +:+ sep +:+ join sep parts'
  end.

Definition array (items : list string) : string :=
  "[" +:+ join ", " items +:+ "]".

Definition object (members : list (string * string)) : string :=
  "{" +:+ join ", " (map (fun m => quoted m.1 +:+ ": " +:+ m.2) members) +:+ "}".

End Json.

(* ===================================================================== *)
(** * The object store and the scripts' effects *)
(* ===================================================================== *)

(** An S3-compatible store: the objects it holds, as (bucket, key) pairs;
    the error code with which it refuses to delete a key, if it does
    (access policy, object lock, outage), which may depend on what it
    holds; and the length of a listing page ([page_extra + 1] keys).  An
    object key has at least one character: no store holds an object under
    the empty key. *)
Record Store := {
  objects : gset (string * string);
  refuses : gset (string * string) -> string -> string -> option string;
  page_extra : nat;
  keys_nonempty : forall o, o ∈ objects -> o.2 <> ""
}.

Definition max_keys (st : Store) : nat := S (page_extra st).

Definition remove_object (bucket key : string) (st : Store) : Store :=
  {| objects := objects st ∖ {[ (bucket, key) ]};
     refuses := refuses st;
     page_extra := page_extra st;
     keys_nonempty := fun o Ho =>
       keys_nonempty st o (proj1 (proj1 (elem_of_difference _ _ _) Ho)) |}.

(** The check that a given finite set of objects has no empty key. *)
Definition keys_checked (objs : gset (string * string)) :
  forallb (fun o : string * string => negb (String.eqb o.2 "")) (elements objs) = true ->
  forall o, o ∈ objs -> o.2 <> "".
Proof.
  intros H o Ho E. rewrite forallb_forall in H.
  specialize (H o). rewrite E in H. simpl in H.
  assert (false = true) as F; [|discriminate F].
  apply H. apply list_elem_of_In, elem_of_elements, Ho.
Qed.

(** The keys of a bucket that start with the prefix, in the order the
    store lists them: ascending, byte by byte.  A listing request is taken
    to be answered; only delete requests can be refused. *)
Definition keys_under (st : Store) (bucket prefix : string) : list string :=
  merge_sort String.le
    (filter (fun k => String.prefix prefix k = true)
       (snd <$> filter (fun o => o.1 = bucket) (elements (objects st)))).

(** A continuation token stands for the last key of the page before: the
    next page starts after it. *)
Definition after_token (token : option string) (k : string) : bool :=
  match token with
  | None => true
  | Some t => String.ltb t k
  end.

(** One response of [list_objects_v2]: no ['Contents'] entry when the page
    is empty, a continuation token when the listing is truncated. *)
Record page := {
  Contents : option (list string);
  NextContinuationToken : option string
}.

Definition list_objects_v2 (st : Store) (bucket prefix : string)
    (token : option string) : page :=
  let ks := filter (fun k => after_token token k = true) (keys_under st bucket prefix) in
  let contents := take (max_keys st) ks in
  {| Contents := match contents with [] => None | _ => Some contents end;
     NextContinuationToken :=
       if (max_keys st <? length ks)%nat then last contents else None |}.

(** What a script does that the outside sees. *)
Inductive event :=
| Print (line : string)
| Input (prompt : string)
| LoadJson (path : string)
| Boto3Client (access_key secret_key endpoint region : string)
| ListObjectsV2 (bucket prefix : string) (token : option string)
| DeleteObject (bucket : string) (key : pyval).

(** How a script stops other than by reaching its end. *)
Inductive stop :=
| Exit (code : Z)
| Uncaught (e : pyexn)
| OutOfFuel.

(** A script: from the store to the events, the store left and either a
    stop or a value. *)
Definition prog (A : Type) : Type := Store -> list event * Store * (stop + A).

Definition ret {A} (a : A) : prog A := fun st => ([], st, inr a).

Definition pbind {A B} (m : prog A) (k : A -> prog B) : prog B := fun st =>
  match m st with
  | (tr, st', inl s) => (tr, st', inl s)
  | (tr, st', inr a) =>
      match k a st' with
      | (tr', st'', r) => (tr ++ tr', st'', r)
      end
  end.

Notation "x <- m ;; k" := (pbind m (fun x => k))
  (at level 100, m at next level, right associativity,
   format "x  <-  m ;;  '//' k").
Notation "m ;; k" := (pbind m (fun _ => k))
  (at level 100, right associativity, format "m ;;  '//' k").

Definition emit (e : event) : prog unit := fun st => ([e], st, inr tt).
Definition print (line : string) : prog unit := emit (Print line).
Definition sys_exit {A} (code : Z) : prog A := fun st => ([], st, inl (Exit code)).
Definition lift {A} (m : except A) : prog A := fun st =>
  match m with
  | Ok a => ([], st, inr a)
  | Raise e => ([], st, inl (Uncaught e))
  end.

(** [try: body except Exception as e: ...]: an exception of the body
    becomes a value; [SystemExit] is not an [Exception]. *)
Definition try_ {A} (body : prog A) : prog (except A) := fun st =>
  match body st with
  | (tr, st', inr a) => (tr, st', inr (Ok a))
  | (tr, st', inl (Uncaught e)) => (tr, st', inr (Raise e))
  | (tr, st', inl s) => (tr, st', inl s)
  end.

(** [s3.delete_object(Bucket=bucket, Key=key)]: a key that is not a
    string, or is the empty string, fails the client's parameter validation
    ([Key] has a minimum length of 1) before any request is sent; a refused
    request raises; otherwise the object is gone afterwards, whether it was
    there or not.  The bucket name is taken to be one the client accepts. *)
Definition delete_object (bucket : string) (key : pyval) : prog unit := fun st =>
  match key with
  | PStr k =>
      if String.eqb k "" then
        ([DeleteObject bucket key], st, inl (Uncaught ParamValidationError))
      else
        match refuses st (objects st) bucket k with
        | Some code => ([DeleteObject bucket key], st, inl (Uncaught (ClientError code)))
        | None => ([DeleteObject bucket key], remove_object bucket k st, inr tt)
        end
  | _ => ([DeleteObject bucket key], st, inl (Uncaught ParamValidationError))
  end.

(** What is around a run: what [load_file_ids] finds at a path, the line
    typed at the prompt, and whether a client can be built. *)
Record World := {
  load_file_ids : string -> except pyval;
  stdin : except string;
  boto3_client : string -> string -> string -> string -> except unit
}.

(** The outcome of a whole run. *)
Definition run (p : prog unit) (st : Store) : list event * Store * (stop + unit) := p st.

Definition trace_of {A} (r : list event * Store * A) : list event := r.1.1.
Definition store_of {A} (r : list event * Store * A) : Store := r.1.2.
Definition status_of {A} (r : list event * Store * A) : A := r.2.

(** The process exit code: 0 at the end of the script, the argument of
    [sys.exit], 1 for an uncaught exception. *)
Definition exit_code (s : stop + unit) : option Z :=
  match s with
  | inr _ => Some 0%Z
  | inl (Exit c) => Some c
  | inl (Uncaught _) => Some 1%Z
  | inl OutOfFuel => None
  end.

Definition is_delete (e : event) : bool :=
  match e with DeleteObject _ _ => true | _ => false end.
Definition is_input (e : event) : bool :=
  match e with Input _ => true | _ => false end.

(** The keys of the delete calls of a trace, in order. *)
Definition delete_calls (tr : list event) : list (string * pyval) :=
  omap (fun e => match e with DeleteObject b k => Some (b, k) | _ => None end) tr.
Definition input_calls (tr : list event) : list string :=
  omap (fun e => match e with Input p => Some p | _ => None end) tr.
Definition printed (tr : list event) : list string :=
  omap (fun e => match e with Print l => Some l | _ => None end) tr.

Definition str_nat (n : nat) : string := NilZero.string_of_uint (Nat.to_uint n).
Definition nl : string := String (ascii_of_nat 10) EmptyString.
Fixpoint string_repeat (s : string) (n : nat) : string :=
  match n with
  | O => EmptyString
  | S n' => s +:+ string_repeat s n'
  end.

(* ===================================================================== *)
(** * The Selective Deleter: [delete_by_file_ids.py] *)
(* ===================================================================== *)

Record options := {
  dry_run : bool;
  file_type : option string   (* [None] means both types *)
}.

(** A DeletionTarget: [(submission_id, file_type, s3_key)]. *)
Definition target : Type := pyval * string * pyval.

Definition type_error_line : string :=
  "Error: --type requires a value (nucleotideAlignment or siloReads)".

(** The loop of [parse_args]: [None] is the path that prints
    [type_error_line] and calls [sys.exit(1)]. *)
Fixpoint parse_args_loop (argv positional : list string) (args : options)
  : option (list string * options) :=
  match argv with
  | [] => Some (positional, args)
  | a :: rest =>
      if String.eqb a "--dry-run" then
        parse_args_loop rest positional
          {| dry_run := true; file_type := file_type args |}
      else if String.eqb a "--type" then
        match rest with
        | v :: rest' =>
            parse_args_loop rest' positional
              {| dry_run := dry_run args; file_type := Some v |}
        | [] => None
        end
      else parse_args_loop rest (positional ++ [a]) args
  end.

(** The [args] dict [parse_args] starts from. *)
Definition no_options : options := {| dry_run := false; file_type := None |}.

Definition parse_args (argv : list string) : prog (list string * options) :=
  match parse_args_loop argv [] no_options with
  | Some r => ret r
  | None => print type_error_line;; sys_exit 1
  end.

Definition usage_lines : list string :=
  [ "Usage: python delete_by_file_ids.py <file_ids_json> <bucket_name> <prefix> <access_key> <secret_key> <endpoint> <region> [--dry-run] [--type TYPE]";
    "";
    "Options:";
    "  --dry-run          Preview deletions without actually deleting";
    "  --type TYPE        Only delete 'nucleotideAlignment' or 'siloReads'" ].

Definition bad_type_line (file_type : string) : string :=
  "Error: --type must be 'nucleotideAlignment' or 'siloReads', got '"
    +:+ file_type +:+ "'".

(** [file_type and file_type not in ("nucleotideAlignment", "siloReads")] *)
Definition type_rejected (file_type : option string) : bool :=
  match file_type with
  | None => false
  | Some t =>
      negb (String.eqb t "")
      && negb (String.eqb t "nucleotideAlignment" || String.eqb t "siloReads")
  end.

(** [file_type is None or file_type == category] *)
Definition type_selects (file_type : option string) (category : string) : bool :=
  match file_type with
  | None => true
  | Some t => String.eqb t category
  end.

Fixpoint print_all (lines : list string) : prog unit :=
  match lines with
  | [] => ret tt
  | l :: lines' => print l;; print_all lines'
  end.

Section SelectiveDeleter.

(** [str(v)] for a value that is not a string, and [str(e)] for an
    exception: the texts are Python's and the client library's. *)
Context (py_str : pyval -> string) (exn_str : pyexn -> string).

(** What an f-string writes for [{v}]. *)
Definition py_format (v : pyval) : string :=
  match v with
  | PStr s => s
  | _ => py_str v
  end.

(** [f"{prefix}{file_id}" if prefix else file_id] *)
Definition s3_key_of (prefix : string) (file_id : pyval) : pyval :=
  if negb (String.eqb prefix "") then PStr (prefix +:+ py_format file_id)
  else file_id.

(** One of the two inner loops of [collect_files_to_delete]. *)
Definition collect_category (submission_id ids : pyval) (prefix category : string)
  : except (list target) :=
  l <-! py_get ids category (PList []);
  file_ids <-! py_iter l;
  Ok (map (fun file_id => (submission_id, category, s3_key_of prefix file_id)) file_ids).

Definition collect_submission (prefix : string) (file_type : option string)
    (item : pyval * pyval) : except (list target) :=
  let '(submission_id, ids) := item in
  a <-! (if type_selects file_type "nucleotideAlignment"
         then collect_category submission_id ids prefix "nucleotideAlignment"
         else Ok []);
  s <-! (if type_selects file_type "siloReads"
         then collect_category submission_id ids prefix "siloReads"
         else Ok []);
  Ok (a ++ s).

Fixpoint collect_items (items : list (pyval * pyval)) (prefix : string)
    (file_type : option string) : except (list target) :=
  match items with
  | [] => Ok []
  | item :: items' =>
      files <-! collect_submission prefix file_type item;
      rest <-! collect_items items' prefix file_type;
      Ok (files ++ rest)
  end.

(** [collect_files_to_delete]: [file_ids.items()] needs a dict. *)
Definition collect_files_to_delete (file_ids : pyval) (prefix : string)
    (file_type : option string) : except (list target) :=
  match file_ids with
  | PDict items => collect_items items prefix file_type
  | _ => Raise AttributeError
  end.

Definition preview_line (t : target) : string :=
  let '(submission_id, ftype, s3_key) := t in
  "  [" +:+ ftype +:+ "] " +:+ py_format s3_key
    +:+ " (submission: " +:+ py_format submission_id +:+ ")".

Definition dashes : string := string_repeat "-" 80.
Definition equals : string := string_repeat "=" 80.

(** The deletion loop of [main], with its two counters. *)
Fixpoint delete_files (bucket_name : string) (files_to_delete : list target)
    (deleted_count error_count : nat) : prog (nat * nat) :=
  match files_to_delete with
  | [] => ret (deleted_count, error_count)
  | (_, _, s3_key) :: files' =>
      r <- try_ (delete_object bucket_name s3_key;;
                 print ("Deleted: " +:+ py_format s3_key));;
      match r with
      | Ok _ => delete_files bucket_name files' (S deleted_count) error_count
      | Raise e =>
          print ("Error deleting " +:+ py_format s3_key +:+ ": " +:+ exn_str e);;
          delete_files bucket_name files' deleted_count (S error_count)
      end
  end.

Definition summary_lines (deleted_count error_count total : nat) : list string :=
  [ nl +:+ equals;
    "SUMMARY";
    equals;
    "Successfully deleted: " +:+ str_nat deleted_count;
    "Errors: " +:+ str_nat error_count;
    "Total processed: " +:+ str_nat total ].

Definition would_delete_line (n : nat) (bucket_name : string) : string :=
  "Would delete " +:+ str_nat n +:+ " files from s3://" +:+ bucket_name +:+ "/".

Definition found_line (n : nat) : string :=
  "Found " +:+ str_nat n +:+ " files to delete".

Definition warning_line (n : nat) (bucket_name : string) : string :=
  nl +:+ "WARNING: This will permanently delete " +:+ str_nat n
     +:+ " files from s3://" +:+ bucket_name +:+ "/".

(** The preview block of [main]: the first ten targets, then how many
    more there are. *)
Definition show_preview (files_to_delete : list target) : prog unit :=
  print (nl +:+ "Files to delete:");;
  print dashes;;
  print_all (map preview_line (take 10 files_to_delete));;
  (if (10 <? length files_to_delete)%nat
   then print ("  ... and " +:+ str_nat (length files_to_delete - 10)
                 +:+ " more files")
   else ret tt);;
  print dashes.

(** The end of [main], from the confirmation prompt on. *)
Definition confirm_and_delete (w : World)
    (bucket_name access_key secret_key endpoint region : string)
    (files_to_delete : list target) : prog unit :=
  print (warning_line (length files_to_delete) bucket_name);;
  emit (Input "Type 'DELETE' to confirm: ");;
  confirmation <- lift (stdin w);;
  if negb (String.eqb confirmation "DELETE") then
    print "Aborted.";; sys_exit 0
  else
    emit (Boto3Client access_key secret_key endpoint region);;
    lift (boto3_client w access_key secret_key endpoint region);;
    counts <- delete_files bucket_name files_to_delete 0 0;;
    print_all (summary_lines counts.1 counts.2 (length files_to_delete)).

Definition normalize_endpoint (endpoint : string) : string :=
  if negb (String.prefix "http://" endpoint) && negb (String.prefix "https://" endpoint)
  then "https://" +:+ endpoint else endpoint.

(** [main], after the positional arguments have been taken apart. *)
Definition main_body (w : World) (opts : options)
    (file_ids_json bucket_name prefix access_key secret_key endpoint region : string)
  : prog unit :=
  let endpoint := normalize_endpoint endpoint in
  let dry_run := dry_run opts in
  let file_type := file_type opts in
  if type_rejected file_type then
    print (bad_type_line (default "" file_type));; sys_exit 1
  else
    print ("Loading file IDs from: " +:+ file_ids_json);;
    emit (LoadJson file_ids_json);;
    file_ids <- lift (load_file_ids w file_ids_json);;
    n <- lift (py_len file_ids);;
    print ("Loaded " +:+ str_nat n +:+ " submissions");;
    files_to_delete <- lift (collect_files_to_delete file_ids prefix file_type);;
    print (found_line (length files_to_delete));;
    match files_to_delete with
    | [] => print "No files to delete."
    | _ =>
        show_preview files_to_delete;;
        if dry_run then
          print (nl +:+ "[DRY RUN] No files were deleted.");;
          print (would_delete_line (length files_to_delete) bucket_name)
        else
          confirm_and_delete w bucket_name access_key secret_key endpoint region
            files_to_delete
    end.

(** [main] on [sys.argv[1:]]. *)
Definition main (argv : list string) (w : World) : prog unit :=
  parsed <- parse_args argv;;
  match parsed.1 with
  | file_ids_json :: bucket_name :: prefix :: access_key :: secret_key
      :: endpoint :: region :: _ =>
      main_body w parsed.2
        file_ids_json bucket_name prefix access_key secret_key endpoint region
  | _ => print_all usage_lines;; sys_exit 1
  end.

End SelectiveDeleter.

(* ===================================================================== *)
(** * The Prefix Deleter: [delete_s3_files.py] *)
(* ===================================================================== *)

Definition prefix_usage_line : string :=
  "Usage: python delete_s3_files.py <bucket_name> <prefix> <access_key> <secret_key> <endpoint> <region>".

(** The inner loop: [for obj in page['Contents']]. *)
Fixpoint delete_contents (bucket_name : string) (contents : list string)
    (deleted_count : nat) : prog nat :=
  match contents with
  | [] => ret deleted_count
  | key :: contents' =>
      print ("Deleting: " +:+ key);;
      delete_object bucket_name (PStr key);;
      delete_contents bucket_name contents' (S deleted_count)
  end.

(** [paginator.paginate(...)], one request at a time. *)
Definition next_page (bucket prefix : string) (token : option string) : prog page :=
  fun st => ([ListObjectsV2 bucket prefix token], st,
             inr (list_objects_v2 st bucket prefix token)).

(** The outer loop: [for page in pages].  The paginator asks for the next
    page only when the body of the loop is done with the one before; the
    fuel bounds the number of pages. *)
Fixpoint delete_pages (fuel : nat) (bucket_name prefix : string)
    (token : option string) (deleted_count : nat) : prog nat :=
  match fuel with
  | O => fun st => ([], st, inl OutOfFuel)
  | S fuel' =>
      pg <- next_page bucket_name prefix token;;
      deleted_count' <-
        match Contents pg with
        | Some contents => delete_contents bucket_name contents deleted_count
        | None => ret deleted_count
        end;;
      match NextContinuationToken pg with
      | Some token' => delete_pages fuel' bucket_name prefix (Some token') deleted_count'
      | None => ret deleted_count'
      end
  end.

Definition deleted_line (deleted_count : nat) (bucket_name prefix : string) : string :=
  "Deleted " +:+ str_nat deleted_count +:+ " objects from "
    +:+ bucket_name +:+ "/" +:+ prefix.

(** The script, on [sys.argv[1:]]. *)
Definition delete_s3_files (fuel : nat) (argv : list string) (w : World) : prog unit :=
  match argv with
  | bucket_name :: prefix :: access_key :: secret_key :: endpoint :: region :: _ =>
      emit (Boto3Client access_key secret_key endpoint region);;
      lift (boto3_client w access_key secret_key endpoint region);;
      deleted_count <- delete_pages fuel bucket_name prefix None 0;;
      print (deleted_line deleted_count bucket_name prefix)
  | _ => print prefix_usage_line;; sys_exit 1
  end.

(* ===================================================================== *)
(** * Notions the properties are stated with *)
(* ===================================================================== *)

(** The submission id of a record, as the first two lines of the loop of
    [extract_file_ids] read it. *)
Definition submission_id_of (record : pyval) : except pyval :=
  metadata <-! py_get record "metadata" (PDict []);
  py_get metadata "submissionId" PNone.

(** The record carries a non-empty submission id. *)
Definition carries_id (record : pyval) : bool :=
  match submission_id_of record with
  | Ok sid => py_truthy sid
  | Raise _ => false
  end.

(** The non-empty submission ids of the records, in input order. *)
Definition submission_ids (records : list pyval) : list pyval :=
  omap (fun record =>
          match submission_id_of record with
          | Ok sid => if py_truthy sid then Some sid else None
          | Raise _ => None
          end) records.

(** The entries the records store one after the other, when none raises. *)
Fixpoint stored_entries (json_loads : string -> except pyval) (records : list pyval)
  : except (list (pyval * pyval)) :=
  match records with
  | [] => Ok []
  | record :: records' =>
      e <-! record_entry json_loads record;
      es <-! stored_entries json_loads records';
      Ok (match e with Some kv => kv :: es | None => es end)
  end.

(** [f.get("fileId")] for an element [f] of a file array. *)
Definition file_id_of (f : pyval) : pyval :=
  match f with
  | PDict d => default PNone (dict_lookup (PStr "fileId") d)
  | _ => PNone
  end.

(** The value of a metadata field: [metadata.get(name)]. *)
Definition field_of (metadata : list (pyval * pyval)) (name : string) : pyval :=
  default PNone (dict_lookup (PStr name) metadata).

(** A field value from which no JSON comes out: absent or null, empty (any
    falsy value), not a string, or a string on which [json.loads] raises
    one of the two exceptions the handler names. *)
Definition undecodable (json_loads : string -> except pyval) (v : pyval) : Prop :=
  py_truthy v = false
  \/ (forall s, v <> PStr s)
  \/ (exists s e, v = PStr s /\ json_loads s = Raise e /\ caught e = true).

(** What a record stores for a field value: the elements the
    comprehension goes over ([parse_file_field], then the iteration), and
    the list it makes of them. *)
Definition field_files (json_loads : string -> except pyval) (v : pyval)
  : except (list pyval) :=
  files <-! parse_file_field json_loads v; py_iter files.

Definition field_ids (json_loads : string -> except pyval) (v : pyval) : except pyval :=
  files <-! parse_file_field json_loads v; file_ids_of files.

(** The category list of an entry of the output. *)
Definition category_list (entry : pyval) (category : string) : option pyval :=
  match entry with
  | PDict d => dict_lookup (PStr category) d
  | _ => None
  end.

(** The record follows the upstream contract: an object whose [metadata],
    if any, is an object; its [submissionId], if any, is a string or null;
    each file field, when it is a string that decodes, decodes to an array
    of objects, and otherwise makes the decoder raise nothing but what the
    handler names. *)
Definition is_dict (v : pyval) : bool :=
  match v with PDict _ => true | _ => false end.

Definition files_ok (json_loads : string -> except pyval) (v : pyval) : bool :=
  match parse_file_field json_loads v with
  | Ok (PList l) => forallb is_dict l
  | _ => false
  end.

Definition schema_ok (json_loads : string -> except pyval) (record : pyval) : bool :=
  match record with
  | PDict d =>
      match default (PDict []) (dict_lookup (PStr "metadata") d) with
      | PDict md =>
          match field_of md "submissionId" with
          | PNone => true
          | PStr s =>
              String.eqb s ""
              || (files_ok json_loads (field_of md "nucleotideAlignment")
                  && files_ok json_loads (field_of md "siloReads"))
          | _ => false
          end
      | _ => false
      end
  | _ => false
  end.

(** The store holds an object of the bucket whose key starts with the
    prefix. *)
Definition holds_under (st : Store) (bucket prefix key : string) : Prop :=
  (bucket, key) ∈ objects st /\ String.prefix prefix key = true.

(** The key under which an entry sits, and the dict after a run of
    stores. *)
Definition kof (e : pyval * pyval) : option hkey := key_of e.1.

Definition store_all (d es : list (pyval * pyval)) : list (pyval * pyval) :=
  foldl (fun d e => dict_store e.1 e.2 d) d es.

(** ** Sample records *)

Definition metadata_record (fields : list (string * pyval)) : pyval :=
  PDict [(PStr "metadata", PDict (map (fun f => (PStr f.1, f.2)) fields))].

Definition record_S1_old : pyval :=
  metadata_record
    [("submissionId", PStr "S1");
     ("nucleotideAlignment",
      PStr (Json.array [Json.object [("fileId", Json.quoted "a1");
                                     ("name", Json.quoted "a1.fasta")]]));
     ("siloReads",
      PStr (Json.array [Json.object [("fileId", Json.quoted "b0")]]))].

Definition record_S1_new : pyval :=
  metadata_record
    [("submissionId", PStr "S1");
     ("nucleotideAlignment",
      PStr (Json.array [Json.object [("fileId", Json.quoted "a2")];
                        Json.object [("name", Json.quoted "x")];
                        Json.object [("fileId", Json.quoted "")];
                        Json.object [("fileId", "null")];
                        Json.object [("fileId", Json.quoted "a3")]]));
     ("siloReads", PStr "[]")].

Definition record_S2 : pyval :=
  metadata_record
    [("submissionId", PStr "S2");
     ("nucleotideAlignment", PStr "not json");
     ("siloReads", PNone)].

Definition record_without_id : pyval :=
  metadata_record
    [("nucleotideAlignment",
      PStr (Json.array [Json.object [("fileId", Json.quoted "z")]]))].

Definition record_number_field : pyval :=
  metadata_record
    [("submissionId", PStr "S1");
     ("nucleotideAlignment", PStr "5")].

(** A record whose alignment field is the text of an integer of 4301
    digits. *)
Definition long_number : string :=
  string_of_list_ascii (replicate 4301 "1"%char).

Definition record_long_number : pyval :=
  metadata_record
    [("submissionId", PStr "S3");
     ("nucleotideAlignment", PStr long_number)].

(** ** Notions for the deleters *)

(** The outcome of a script that first did [tr]. *)
Definition prepend {A} (tr : list event) (r : list event * Store * A)
  : list event * Store * A :=
  (tr ++ r.1.1, r.1.2, r.2).

(** A script that leaves the store alone and never asks for input. *)
Definition quiet {A} (p : prog A) : Prop :=
  forall st, store_of (p st) = st
             /\ delete_calls (trace_of (p st)) = []
             /\ input_calls (trace_of (p st)) = [].

(** Whether each [delete_object] call of a run over the keys succeeds, the
    store changing from one call to the next. *)
Fixpoint delete_outcomes (bucket : string) (keys : list pyval) (st : Store) : list bool :=
  match keys with
  | [] => []
  | key :: keys' =>
      match delete_object bucket key st with
      | (_, st', inr _) => true :: delete_outcomes bucket keys' st'
      | (_, st', inl _) => false :: delete_outcomes bucket keys' st'
      end
  end.

Section PreviewLines.
Context (py_str : pyval -> string).

(** The lines of the preview block. *)
Definition preview_lines (files_to_delete : list target) : list string :=
  [nl +:+ "Files to delete:"; dashes]
  ++ map (preview_line py_str) (take 10 files_to_delete)
  ++ (if (10 <? length files_to_delete)%nat
      then ["  ... and " +:+ str_nat (length files_to_delete - 10) +:+ " more files"]
      else [])
  ++ [dashes].

(** What [main] prints and does up to the count of targets. *)
Definition opening (file_ids_json : string) (submissions targets : nat) : list event :=
  [Print ("Loading file IDs from: " +:+ file_ids_json);
   LoadJson file_ids_json;
   Print ("Loaded " +:+ str_nat submissions +:+ " submissions");
   Print (found_line targets)].
End PreviewLines.

(** The keys a listing request finds: those under the prefix that come
    after the continuation token. *)
Definition listing (st : Store) (bucket prefix : string) (token : option string)
  : list string :=
  filter (fun k => after_token token k = true) (keys_under st bucket prefix).

(** The store of the specification's example, with pages of one key. *)
Definition example_objects : gset (string * string) :=
  {[ ("bucket", "p/1"); ("bucket", "p/2"); ("bucket", "q/1") ]}.

Definition example_store : Store :=
  {| objects := example_objects;
     refuses := fun _ _ _ => None;
     page_extra := 0;
     keys_nonempty := keys_checked example_objects ltac:(vm_compute; reflexivity) |}.

Definition example_argv : list string :=
  ["bucket"; "p/"; "AK"; "SK"; "https://s3.example.org"; "us-east-1"].

(** ** Sample runs *)

(** The document of the specification's end-to-end example. *)
Definition sample_doc : pyval :=
  match Json.loads
    (Json.object
       [("S1", Json.object
                 [("nucleotideAlignment", Json.array [Json.quoted "a1"]);
                  ("siloReads", Json.array [])]);
        ("S2", Json.object
                 [("nucleotideAlignment", Json.array []);
                  ("siloReads", Json.array [Json.quoted "b1"; Json.quoted "b2"])])])
  with
  | Ok doc => doc
  | Raise _ => PNone
  end.

(** A store with three objects of the batch and one other, which refuses
    to delete [data/b1]. *)
Definition sample_objects : gset (string * string) :=
  {[ ("bucket", "data/a1"); ("bucket", "data/b1");
     ("bucket", "data/b2"); ("bucket", "keep/me") ]}.

Definition sample_store : Store :=
  {| objects := sample_objects;
     refuses := fun _ _ key =>
                  if String.eqb key "data/b1" then Some "AccessDenied" else None;
     page_extra := 999;
     keys_nonempty := keys_checked sample_objects ltac:(vm_compute; reflexivity) |}.

Definition sample_world (typed : string) : World :=
  {| load_file_ids := fun path =>
       if String.eqb path "file_ids.json" then Ok sample_doc else Raise OSError;
     stdin := Ok typed;
     boto3_client := fun _ _ _ _ => Ok tt |}.

Definition sample_argv : list string :=
  ["file_ids.json"; "bucket"; "data/"; "AK"; "SK"; "s3.example.org"; "us-east-1"].

(** Stand-ins for the two text renderers, for runs that print no value
    other than strings. *)
Definition no_str (v : pyval) : string := "".
Definition exn_name (e : pyexn) : string :=
  match e with
  | ClientError code => code
  | _ => "error"
  end.

(** The target list of the specification's end-to-end example. *)
Definition sample_targets : list target :=
  [(PStr "S1", "nucleotideAlignment", PStr "data/a1");
   (PStr "S2", "siloReads", PStr "data/b1");
   (PStr "S2", "siloReads", PStr "data/b2")].

(* ===================================================================== *)
(** * The rest of the Fetcher: the download and [main] *)
(* ===================================================================== *)

Definition DEFAULT_API_URL : string :=
  "https://api.db.wasap.genspectrum.org/backend/rsva/get-released-data".

(** The network as [urlopen] shows it: opening the URL raises or gives a
    response, whose lines come one read at a time, each read raising or
    giving the bytes of a line. *)
Record Network := {
  urlopen : string -> except (list (except string))
}.

Section FetchReleasedData.

(** [json.loads], [bytes.decode('utf-8')] (which may raise) and
    [str.strip] are the standard library's. *)
Context (json_loads : string -> except pyval)
        (decode : string -> except string)
        (strip : string -> string).

(** The loop of [fetch_released_data] over the lines of the response. *)
Fixpoint read_records (response : list (except string)) : except (list pyval) :=
  match response with
  | [] => Ok []
  | item :: response' =>
      raw <-! item;
      text <-! decode raw;
      let line := strip text in
      if String.eqb line "" then read_records response'
      else
        record <-! json_loads line;
        records <-! read_records response';
        Ok (record :: records)
  end.

Definition fetch_released_data (net : Network) (api_url : string)
  : except (list pyval) :=
  response <-! urlopen net api_url;
  read_records response.

End FetchReleasedData.

(** What the Fetcher does that the outside sees: a line printed, the
    request, the document dumped to the output file. *)
Inductive fetcher_event :=
| Say (line : string)
| Get (api_url : string)
| Dump (output_file : string) (file_ids : list (pyval * pyval)).

(** How the Fetcher stops early; [v[key]] on a dict without the key raises
    a [KeyError]. *)
Inductive fetcher_stop :=
| FetcherExit (code : Z)
| FetcherRaise (e : pyexn)
| FetcherKeyError (key : string).

Definition fprog (A : Type) : Type := (list fetcher_event * (fetcher_stop + A))%type.

Definition fret {A} (a : A) : fprog A := ([], inr a).

Definition fbind {A B} (m : fprog A) (k : A -> fprog B) : fprog B :=
  match m with
  | (tr, inl s) => (tr, inl s)
  | (tr, inr a) =>
      match k a with
      | (tr', r) => (tr ++ tr', r)
      end
  end.

Notation "x <~ m ;; k" := (fbind m (fun x => k))
  (at level 100, m at next level, right associativity,
   format "x  <~  m ;;  '//' k").
Notation "m ~;; k" := (fbind m (fun _ => k))
  (at level 100, right associativity, format "m  ~;;  '//' k").

Definition say (line : string) : fprog unit := ([Say line], inr tt).
Definition fsys_exit {A} (code : Z) : fprog A := ([], inl (FetcherExit code)).
Definition flift {A} (m : except A) : fprog A :=
  match m with
  | Ok a => ([], inr a)
  | Raise e => ([], inl (FetcherRaise e))
  end.

(** [v[key]]: a value of a dict, [KeyError] without the key, [TypeError]
    on anything that is not a dict (a list or a string takes no string
    index, the rest takes none). *)
Definition py_getitem (v : pyval) (key : string) : fprog pyval :=
  match v with
  | PDict d =>
      match dict_lookup (PStr key) d with
      | Some x => fret x
      | None => ([], inl (FetcherKeyError key))
      end
  | _ => ([], inl (FetcherRaise TypeError))
  end.

(** [sum(len(v[category]) for v in file_ids.values())] *)
Fixpoint count_files (category : string) (values : list pyval) : fprog nat :=
  match values with
  | [] => fret 0
  | v :: values' =>
      l <~ py_getitem v category;;
      n <~ flift (py_len l);;
      rest <~ count_files category values';;
      fret (n + rest)
  end.

(** What is around a run of the Fetcher: the network, and whether the
    output file can be opened for writing.  The mapping that reaches
    [json.dump] has keys and values it serialises; a write that fails
    half-way is not modelled. *)
Record FetcherWorld := {
  network : Network;
  open_w : string -> except unit
}.

Definition fetcher_usage_lines : list string :=
  [ "Usage: python fetch_file_ids.py <output_file> [api_url]";
    "Example: python fetch_file_ids.py file_ids.json" ].

Fixpoint say_all (lines : list string) : fprog unit :=
  match lines with
  | [] => fret tt
  | l :: lines' => say l ~;; say_all lines'
  end.

Section FetcherMain.

Context (json_loads : string -> except pyval)
        (decode : string -> except string)
        (strip : string -> string).

(** [main] of the Fetcher, on [sys.argv[1:]]. *)
Definition fetcher_main (argv : list string) (w : FetcherWorld) : fprog unit :=
  match argv with
  | [] => say_all fetcher_usage_lines ~;; fsys_exit 1
  | output_file :: rest =>
      let api_url := match rest with url :: _ => url | [] => DEFAULT_API_URL end in
      say ("Fetching data from: " +:+ api_url) ~;;
      (([Get api_url], inr tt) : fprog unit) ~;;
      records <~ flift (fetch_released_data json_loads decode strip (network w) api_url);;
      say ("Fetched " +:+ str_nat (length records) +:+ " records") ~;;
      file_ids <~ flift (extract_file_ids json_loads records);;
      say ("Extracted file IDs for " +:+ str_nat (length file_ids) +:+ " submissions") ~;;
      alignment_count <~ count_files "nucleotideAlignment" file_ids.*2;;
      silo_count <~ count_files "siloReads" file_ids.*2;;
      say ("  - nucleotideAlignment: " +:+ str_nat alignment_count +:+ " files") ~;;
      say ("  - siloReads: " +:+ str_nat silo_count +:+ " files") ~;;
      flift (open_w w output_file) ~;;
      (([Dump output_file file_ids], inr tt) : fprog unit) ~;;
      say ("Written to: " +:+ output_file)
  end.

End FetcherMain.

Definition dumps (tr : list fetcher_event) : list (string * list (pyval * pyval)) :=
  omap (fun e => match e with Dump p d => Some (p, d) | _ => None end) tr.
Definition gets (tr : list fetcher_event) : list string :=
  omap (fun e => match e with Get u => Some u | _ => None end) tr.
Definition said (tr : list fetcher_event) : list string :=
  omap (fun e => match e with Say l => Some l | _ => None end) tr.

(** The number of identifiers an entry of the output holds in a category. *)
Definition ids_in (category : string) (entry : pyval) : nat :=
  match category_list entry category with
  | Some (PList l) => length l
  | _ => 0
  end.

Definition total_ids (category : string) (file_ids : list (pyval * pyval)) : nat :=
  foldr (fun e n => (ids_in category e.2 + n)%nat) 0%nat file_ids.

(** An entry of the shape the Fetcher stores: both category keys, each
    with a list. *)
Definition two_lists (entry : pyval) : Prop :=
  exists a s, entry = PDict [(PStr "nucleotideAlignment", PList a);
                             (PStr "siloReads", PList s)].

(** The keys in the order of their first occurrence, up to key equality. *)
Definition first_occurrences (keys : list pyval) : list pyval :=
  foldl (fun seen k =>
           if bool_decide (key_of k ∈ key_of <$> seen) then seen else seen ++ [k])
        [] keys.

(** ** Notions for the argument lists *)

Definition is_option_token (a : string) : bool :=
  String.eqb a "--dry-run" || String.eqb a "--type".

(** A script that makes no delete call and leaves the store alone. *)
Definition harmless {A} (p : prog A) : Prop :=
  forall st, store_of (p st) = st /\ delete_calls (trace_of (p st)) = [].

(** A script that only removes objects, and only from one bucket. *)
Definition confined {A} (bucket : string) (p : prog A) : Prop :=
  forall st,
    objects (store_of (p st)) ⊆ objects st
    /\ (forall o, o ∈ objects st -> o.1 <> bucket -> o ∈ objects (store_of (p st)))
    /\ Forall (fun c => c.1 = bucket) (delete_calls (trace_of (p st))).

(** The keys of the calls of a run that succeeded. *)
Fixpoint deleted_keys (keys : list pyval) (outcomes : list bool) : list string :=
  match keys, outcomes with
  | PStr k :: keys', true :: outcomes' => k :: deleted_keys keys' outcomes'
  | _ :: keys', _ :: outcomes' => deleted_keys keys' outcomes'
  | _, _ => []
  end.

(** ** Sample network *)

(** A stand-in for [decode] and [strip] on lines of plain ASCII: nothing
    to decode, blanks cut at both ends. *)
Fixpoint lstrip (s : string) : string :=
  match s with
  | String c s' => if Json.is_ws c then lstrip s' else s
  | EmptyString => s
  end.
Definition ascii_strip (s : string) : string :=
  String.rev (lstrip (String.rev (lstrip s))).

Definition plain_decode (raw : string) : except string := Ok raw.

(** A response of three lines, the second one blank. *)
Definition sample_line (submission_id : string) : string :=
  Json.object
    [("metadata",
      Json.object [("submissionId", Json.quoted submission_id);
                   ("nucleotideAlignment", Json.quoted "[]")])].

Definition sample_response : list (except string) :=
  [Ok (sample_line "S1"); Ok "   "; Ok (sample_line "S2" +:+ nl)].

(** A store of one bucket that refuses to delete [p/2], with pages of one
    key. *)
Definition locked_objects : gset (string * string) :=
  {[ ("bucket", "p/1"); ("bucket", "p/2"); ("bucket", "p/3"); ("bucket", "q/1") ]}.

Definition locked_store : Store :=
  {| objects := locked_objects;
     refuses := fun _ _ key =>
                  if String.eqb key "p/2" then Some "AccessDenied" else None;
     page_extra := 0;
     keys_nonempty := keys_checked locked_objects ltac:(vm_compute; reflexivity) |}.

(** Four input lines: two with the id S1, one without an id, one with
    the id S2. *)
Definition sample_records : list pyval :=
  [record_S1_old; record_without_id; record_S2; record_S1_new].

(** What the extraction makes of them. *)
Definition sample_output : list (pyval * pyval) :=
  Eval vm_compute in
    match extract_file_ids Json.loads sample_records with
    | Ok out => out
    | Raise _ => []
    end.

(* ===================================================================== *)
(** * Results on the Fetcher *)
(* ===================================================================== *)

Lemma bind_ok_inv {A B} (m : except A) (k : A -> except B) (b : B) :
  bind m k = Ok b -> exists a, m = Ok a /\ k a = Ok b.
Proof. destruct m as [a|e]; simpl; [eauto | discriminate]. Qed.

Ltac bind_inv H :=
  let a := fresh "x" in
  let Ha := fresh "H" a in
  apply bind_ok_inv in H; destruct H as (a & Ha & H).

(** ** Dictionaries *)

Lemma py_key_eqb_true a b : py_key_eqb a b = true <-> key_of a = key_of b.
Proof. unfold py_key_eqb. apply bool_decide_eq_true. Qed.

Lemma py_key_eqb_false a b : py_key_eqb a b = false <-> key_of a <> key_of b.
Proof. unfold py_key_eqb. apply bool_decide_eq_false. Qed.

Lemma dict_lookup_store k' k v d :
  dict_lookup k' (dict_store k v d) =
    if decide (key_of k = key_of k') then Some v else dict_lookup k' d.
Proof.
  induction d as [|[k0 v0] d IH]; simpl.
  - unfold py_key_eqb. rewrite bool_decide_decide. by destruct (decide _).
  - destruct (py_key_eqb k0 k) eqn:E0; simpl.
    + apply py_key_eqb_true in E0. unfold py_key_eqb. rewrite !bool_decide_decide.
      rewrite E0. by destruct (decide _).
    + apply py_key_eqb_false in E0. rewrite IH.
      unfold py_key_eqb. rewrite !bool_decide_decide.
      destruct (decide (key_of k0 = key_of k')) as [E1|E1]; [|done].
      destruct (decide (key_of k = key_of k')) as [E2|E2]; [|done].
      congruence.
Qed.

Lemma dict_store_keys k v d :
  kof <$> dict_store k v d =
    if decide (key_of k ∈ kof <$> d) then kof <$> d else (kof <$> d) ++ [key_of k].
Proof.
  induction d as [|[k0 v0] d IH].
  - case_decide as H; [by apply elem_of_nil in H|done].
  - change (dict_store k v ((k0, v0) :: d)) with
      (if py_key_eqb k0 k then (k0, v) :: d else (k0, v0) :: dict_store k v d).
    rewrite !fmap_cons. change (kof (k0, v0)) with (key_of k0).
    destruct (py_key_eqb k0 k) eqn:E0.
    + apply py_key_eqb_true in E0. rewrite fmap_cons.
      change (kof (k0, v)) with (key_of k0).
      destruct (decide (key_of k ∈ key_of k0 :: (kof <$> d))) as [H|H]; [done|].
      exfalso. apply H. rewrite E0. apply list_elem_of_here.
    + apply py_key_eqb_false in E0. rewrite fmap_cons, IH.
      change (kof (k0, v0)) with (key_of k0).
      destruct (decide (key_of k ∈ kof <$> d)) as [H|H];
        destruct (decide (key_of k ∈ key_of k0 :: (kof <$> d))) as [H'|H']; try done.
      * exfalso. apply H'. by apply list_elem_of_further.
      * apply elem_of_cons in H' as [?|?]; [congruence|done].
Qed.

Lemma dict_store_length k v d :
  length (dict_store k v d) =
    if decide (key_of k ∈ kof <$> d) then length d else S (length d).
Proof.
  rewrite <- (length_fmap kof (dict_store k v d)), dict_store_keys.
  case_decide; rewrite ?length_app, length_fmap; simpl; lia.
Qed.

Lemma dict_store_NoDup k v d : NoDup (kof <$> d) -> NoDup (kof <$> dict_store k v d).
Proof.
  intros H. rewrite dict_store_keys. case_decide as Hin; [done|].
  apply NoDup_app. split; [done|]. split.
  - intros x Hx ->%list_elem_of_singleton. done.
  - apply NoDup_singleton.
Qed.

Lemma store_all_NoDup es d : NoDup (kof <$> d) -> NoDup (kof <$> store_all d es).
Proof.
  revert d; induction es as [|e es IH]; intros d H; simpl; [done|].
  apply IH. by apply dict_store_NoDup.
Qed.

Lemma store_all_app d es1 es2 :
  store_all d (es1 ++ es2) = store_all (store_all d es1) es2.
Proof. apply foldl_app. Qed.

(** The keys of the dict after the stores are those before and those
    stored. *)
Lemma store_all_keys es d x :
  x ∈ kof <$> store_all d es <-> x ∈ kof <$> d \/ x ∈ kof <$> es.
Proof.
  revert d; induction es as [|e es IH]; intros d; simpl.
  - rewrite elem_of_nil. tauto.
  - rewrite IH, dict_store_keys, elem_of_cons.
    case_decide as Hin.
    + split; [tauto|]. intros [?|[->|?]]; auto.
    + rewrite elem_of_app, list_elem_of_singleton. unfold kof at 4. tauto.
Qed.

(** A lookup finds what the last store under that key left. *)
Lemma lookup_store_all_other k es d :
  Forall (fun e => kof e <> key_of k) es ->
  dict_lookup k (store_all d es) = dict_lookup k d.
Proof.
  revert d; induction es as [|e es IH]; intros d H; simpl; [done|].
  inversion H as [|? ? He Hes]; subst.
  rewrite IH by done. rewrite dict_lookup_store.
  case_decide; [|done]. by destruct He.
Qed.

Lemma lookup_store_all_last k k0 v es1 es2 d :
  key_of k0 = key_of k ->
  Forall (fun e => kof e <> key_of k) es2 ->
  dict_lookup k (store_all d (es1 ++ (k0, v) :: es2)) = Some v.
Proof.
  intros Hk H2. rewrite store_all_app. simpl.
  rewrite lookup_store_all_other by done.
  rewrite dict_lookup_store. by case_decide.
Qed.

Lemma dict_lookup_Some_key k d v :
  dict_lookup k d = Some v -> key_of k ∈ kof <$> d.
Proof.
  induction d as [|[k0 v0] d IH]; simpl; [discriminate|].
  destruct (py_key_eqb k0 k) eqn:E.
  - intros _. apply py_key_eqb_true in E. rewrite <- E. apply list_elem_of_here.
  - intros H. apply list_elem_of_further. auto.
Qed.

Lemma filter_key_absent (d : list (pyval * pyval)) (x : option hkey) :
  x ∉ kof <$> d -> filter (fun e => kof e = x) d = [].
Proof.
  induction d as [|e d IH]; intros Hx; [done|].
  rewrite filter_cons. rewrite fmap_cons in Hx.
  apply not_elem_of_cons in Hx as [Hne Hx].
  destruct (decide (kof e = x)) as [E|E]; [congruence|]. auto.
Qed.

Lemma NoDup_count_one (d : list (pyval * pyval)) (x : option hkey) :
  NoDup (kof <$> d) -> x ∈ kof <$> d ->
  length (filter (fun e => kof e = x) d) = 1.
Proof.
  induction d as [|e d IH]; intros Hnd Hin.
  - by apply elem_of_nil in Hin.
  - rewrite fmap_cons in Hnd, Hin. apply NoDup_cons in Hnd as [Hnotin Hnd].
    rewrite filter_cons. destruct (decide (kof e = x)) as [E|E].
    + subst x. by rewrite filter_key_absent.
    + apply IH; [done|]. apply elem_of_cons in Hin as [?|?]; [congruence|done].
Qed.

Lemma py_get_Ok o name dflt v :
  py_get o name dflt = Ok v ->
  exists d, o = PDict d /\ v = default dflt (dict_lookup (PStr name) d).
Proof.
  destruct o; try discriminate. simpl. intros [= <-]. eexists. split; [done|].
  by destruct (dict_lookup _ _).
Qed.

(** ** The loop of [extract_file_ids] *)

Section FetcherFacts.

Context (json_loads : string -> except pyval).

Lemma extract_loop_entries records : forall result out,
  extract_loop json_loads result records = Ok out ->
  exists es, stored_entries json_loads records = Ok es
             /\ Forall (fun e => hashable e.1 = true) es
             /\ out = store_all result es.
Proof.
  induction records as [|r rs IH]; intros result out H; simpl in H.
  - injection H as <-. exists []. by split; [|split].
  - bind_inv H. unfold extract_step in Hx. bind_inv Hx.
    destruct (IH _ _ H) as (es & Hes & Hhash & ->).
    simpl. rewrite Hx0, Hes. simpl.
    destruct x0 as [[k v]|].
    + unfold py_setitem in Hx. destruct (hashable k) eqn:Hk; [|discriminate].
      injection Hx as <-. exists ((k, v) :: es). split; [done|]. split; [|done].
      by constructor.
    + injection Hx as <-. by exists es.
Qed.

Lemma entries_extract_loop records : forall result es,
  stored_entries json_loads records = Ok es ->
  Forall (fun e => hashable e.1 = true) es ->
  extract_loop json_loads result records = Ok (store_all result es).
Proof.
  induction records as [|r rs IH]; intros result es H Hh; simpl in H.
  - by injection H as <-.
  - bind_inv H. bind_inv H. injection H as <-.
    simpl. unfold extract_step. rewrite Hx. simpl.
    destruct x as [[k v]|].
    + inversion Hh as [|? ? Hk Hh']; subst. simpl in Hk.
      unfold py_setitem. rewrite Hk. simpl. by apply IH.
    + simpl. by apply IH.
Qed.

Lemma stored_entries_app l1 l2 es :
  stored_entries json_loads (l1 ++ l2) = Ok es ->
  exists es1 es2, stored_entries json_loads l1 = Ok es1
                  /\ stored_entries json_loads l2 = Ok es2
                  /\ es = es1 ++ es2.
Proof.
  revert es; induction l1 as [|r l1 IH]; intros es H; simpl in H.
  - exists [], es. by split; [|split].
  - bind_inv H. bind_inv H. injection H as <-.
    destruct (IH _ Hx0) as (es1 & es2 & H1 & H2 & ->).
    simpl. rewrite Hx, H1. simpl.
    destruct x; eexists _, es2; (split; [reflexivity|]); by split.
Qed.

Lemma stored_entries_from records es e :
  stored_entries json_loads records = Ok es -> e ∈ es ->
  exists r, r ∈ records /\ record_entry json_loads r = Ok (Some e).
Proof.
  revert es; induction records as [|r rs IH]; intros es H He; simpl in H.
  - injection H as <-. by apply elem_of_nil in He.
  - bind_inv H. bind_inv H. injection H as <-.
    destruct x as [kv|].
    + apply elem_of_cons in He as [->|He].
      * exists r. split; [apply list_elem_of_here|done].
      * destruct (IH _ Hx0 He) as (r' & Hr' & E). exists r'.
        split; [by apply list_elem_of_further|done].
    + destruct (IH _ Hx0 He) as (r' & Hr' & E). exists r'.
      split; [by apply list_elem_of_further|done].
Qed.

(** What a record stores, read off its fields. *)
Lemma record_entry_Some record k v :
  record_entry json_loads record = Ok (Some (k, v)) ->
  exists d md a_ids s_ids,
    record = PDict d
    /\ default (PDict []) (dict_lookup (PStr "metadata") d) = PDict md
    /\ k = field_of md "submissionId"
    /\ py_truthy k = true
    /\ field_ids json_loads (field_of md "nucleotideAlignment") = Ok a_ids
    /\ field_ids json_loads (field_of md "siloReads") = Ok s_ids
    /\ v = PDict [(PStr "nucleotideAlignment", a_ids); (PStr "siloReads", s_ids)].
Proof.
  unfold record_entry. intros H. bind_inv H. bind_inv H.
  destruct (py_truthy x0) eqn:Ht; simpl in H; [|discriminate].
  bind_inv H. bind_inv H. bind_inv H. bind_inv H. bind_inv H. bind_inv H.
  injection H as <- <-.
  apply py_get_Ok in Hx as (d & -> & ->).
  apply py_get_Ok in Hx0 as (md & Hmd & ->).
  rewrite Hmd in Hx1, Hx3.
  apply py_get_Ok in Hx1 as (? & [= <-] & ->).
  apply py_get_Ok in Hx3 as (? & [= <-] & ->).
  exists d, md, x5, x6. unfold field_ids, field_of. rewrite Hx2, Hx4. by repeat split.
Qed.

Lemma record_entry_id record :
  record_entry json_loads record = Ok None ->
  exists sid, submission_id_of record = Ok sid /\ py_truthy sid = false.
Proof.
  unfold record_entry, submission_id_of. intros H. bind_inv H. bind_inv H.
  rewrite Hx. simpl. exists x0. split; [done|].
  destruct (py_truthy x0); [|done]. simpl in H.
  bind_inv H. bind_inv H. bind_inv H. bind_inv H. bind_inv H. bind_inv H. discriminate.
Qed.

Lemma record_entry_key record k v :
  record_entry json_loads record = Ok (Some (k, v)) ->
  submission_id_of record = Ok k /\ py_truthy k = true.
Proof.
  unfold record_entry, submission_id_of. intros H. bind_inv H. bind_inv H.
  rewrite Hx. simpl.
  destruct (py_truthy x0) eqn:Ht; simpl in H; [|discriminate].
  bind_inv H. bind_inv H. bind_inv H. bind_inv H. bind_inv H. bind_inv H.
  by injection H as <- <-.
Qed.

(** The keys stored are the non-empty submission ids, in input order. *)
Lemma stored_entries_ids records es :
  stored_entries json_loads records = Ok es ->
  es.*1 = submission_ids records.
Proof.
  revert es; induction records as [|r rs IH]; intros es H; simpl in H.
  - by injection H as <-.
  - bind_inv H. bind_inv H. injection H as <-.
    unfold submission_ids. simpl. fold (submission_ids rs).
    destruct x as [[k v]|].
    + apply record_entry_key in Hx as [-> ->]. simpl. f_equal. by apply IH.
    + apply record_entry_id in Hx as (sid & -> & ->). by apply IH.
Qed.

Lemma submission_ids_cons r rs :
  length (submission_ids (r :: rs))
  = ((if carries_id r then 1 else 0) + length (submission_ids rs))%nat.
Proof.
  unfold carries_id, submission_ids. simpl.
  destruct (submission_id_of r) as [sid|e]; [|done].
  by destruct (py_truthy sid).
Qed.

Lemma carries_id_count records :
  length (filter (fun r => carries_id r = true) records)
  = length (submission_ids records).
Proof.
  induction records as [|r rs IH]; [done|].
  rewrite filter_cons, submission_ids_cons.
  destruct (decide (carries_id r = true)) as [E|E].
  - rewrite E. simpl. by rewrite IH.
  - apply not_true_is_false in E. rewrite E. by rewrite IH.
Qed.

End FetcherFacts.

Lemma dict_store_fst k v d x :
  x ∈ (dict_store k v d).*1 -> x ∈ d.*1 \/ x = k.
Proof.
  induction d as [|[k0 v0] d IH]; simpl.
  - intros ->%list_elem_of_singleton. by right.
  - destruct (py_key_eqb k0 k); simpl; rewrite !elem_of_cons; [tauto|].
    intros [->|H]; [tauto|]. destruct (IH H); tauto.
Qed.

Lemma dict_store_snd k v d x :
  x ∈ (dict_store k v d).*2 -> x ∈ d.*2 \/ x = v.
Proof.
  induction d as [|[k0 v0] d IH]; simpl.
  - intros ->%list_elem_of_singleton. by right.
  - destruct (py_key_eqb k0 k); simpl; rewrite !elem_of_cons; [tauto|].
    intros [->|H]; [tauto|]. destruct (IH H); tauto.
Qed.

Lemma store_all_fst es d x :
  x ∈ (store_all d es).*1 -> x ∈ d.*1 \/ x ∈ es.*1.
Proof.
  revert d; induction es as [|e es IH]; intros d; simpl; [tauto|].
  intros H. destruct (IH _ H) as [H'|H'].
  - apply dict_store_fst in H' as [?| ->]; [tauto|]. right. apply list_elem_of_here.
  - right. by apply list_elem_of_further.
Qed.

Lemma store_all_snd es d x :
  x ∈ (store_all d es).*2 -> x ∈ d.*2 \/ x ∈ es.*2.
Proof.
  revert d; induction es as [|e es IH]; intros d; simpl; [tauto|].
  intros H. destruct (IH _ H) as [H'|H'].
  - apply dict_store_snd in H' as [?| ->]; [tauto|]. right. apply list_elem_of_here.
  - right. by apply list_elem_of_further.
Qed.

Section FetcherResults.

Context (json_loads : string -> except pyval).

Lemma stored_entries_filter records es :
  stored_entries json_loads records = Ok es ->
  stored_entries json_loads (filter (fun r => carries_id r = true) records) = Ok es.
Proof.
  revert es; induction records as [|r rs IH]; intros es H; simpl in H.
  - by injection H as <-.
  - bind_inv H. bind_inv H. injection H as <-.
    rewrite filter_cons. destruct x as [[k v]|].
    + pose proof (record_entry_key _ _ _ _ Hx) as [Hk Ht].
      assert (carries_id r = true) as Hc by (unfold carries_id; by rewrite Hk).
      destruct (decide (carries_id r = true)); [|done].
      simpl. rewrite Hx, (IH _ Hx0). done.
    + pose proof (record_entry_id _ _ Hx) as (sid & Hk & Ht).
      assert (carries_id r = false) as Hc by (unfold carries_id; by rewrite Hk).
      destruct (decide (carries_id r = true)); [congruence|]. by apply IH.
Qed.

Lemma file_id_list_filter fs ids :
  file_id_list fs = Ok ids ->
  ids = filter (fun v => py_truthy v = true) (file_id_of <$> fs).
Proof.
  revert ids; induction fs as [|f fs IH]; intros ids H; simpl in H.
  - by injection H as <-.
  - bind_inv H. bind_inv H. injection H as <-.
    apply py_get_Ok in Hx as (d & -> & ->).
    rewrite fmap_cons, filter_cons. simpl. rewrite <- (IH _ Hx0).
    by destruct (py_truthy _).
Qed.

Lemma file_id_list_dicts fs :
  forallb is_dict fs = true ->
  file_id_list fs = Ok (filter (fun v => py_truthy v = true) (file_id_of <$> fs)).
Proof.
  induction fs as [|f fs IH]; simpl; [done|].
  intros [Hf Hfs]%andb_true_iff. destruct f; try discriminate.
  simpl. rewrite (IH Hfs). simpl. rewrite filter_cons. simpl.
  destruct (dict_lookup (PStr "fileId") d) as [v|]; simpl; [|done].
  by destruct (py_truthy v).
Qed.

Lemma file_ids_of_Ok files ids :
  file_ids_of files = Ok ids ->
  exists fs, py_iter files = Ok fs
             /\ ids = PList (filter (fun v => py_truthy v = true) (file_id_of <$> fs)).
Proof.
  unfold file_ids_of. intros H. bind_inv H. bind_inv H. injection H as <-.
  exists x. split; [done|]. f_equal. by apply file_id_list_filter.
Qed.

Lemma parse_undecodable v :
  undecodable json_loads v -> parse_file_field json_loads v = Ok (PList []).
Proof.
  unfold parse_file_field. intros [H|[H|(s & e & -> & H & Hc)]].
  - by rewrite H.
  - destruct (py_truthy v); [|done]. simpl. destruct v; try done. by destruct (H s).
  - rewrite H, Hc. by destruct (py_truthy _).
Qed.

(** What the handler does not name goes through [parse_file_field]. *)
Lemma parse_uncaught s e :
  s <> "" -> json_loads s = Raise e -> caught e = false ->
  parse_file_field json_loads (PStr s) = Raise e.
Proof.
  intros Hs H Hc. unfold parse_file_field. simpl.
  rewrite (proj2 (String.eqb_neq s "") Hs). simpl. by rewrite H, Hc.
Qed.

Lemma files_ok_ids v :
  files_ok json_loads v = true ->
  exists l ids, parse_file_field json_loads v = Ok (PList l)
                /\ file_ids_of (PList l) = Ok (PList ids).
Proof.
  unfold files_ok, file_ids_of.
  destruct (parse_file_field json_loads v) as [[| | | | |l|]|]; try discriminate.
  intros H. exists l. simpl. rewrite (file_id_list_dicts _ H). simpl. eauto.
Qed.

(** A record that follows the upstream contract never makes the loop
    raise. *)
Lemma schema_ok_entry record :
  schema_ok json_loads record = true ->
  exists e, record_entry json_loads record = Ok e
            /\ forall kv, e = Some kv -> hashable kv.1 = true.
Proof.
  unfold schema_ok, record_entry. destruct record as [| | | | | |d]; try discriminate.
  simpl py_get at 1.
  change (match dict_lookup (PStr "metadata") d with Some v => v | None => PDict [] end)
    with (default (PDict []) (dict_lookup (PStr "metadata") d)).
  destruct (default (PDict []) (dict_lookup (PStr "metadata") d)) as [| | | | | |md];
    try discriminate.
  simpl bind.
  change (match dict_lookup (PStr "submissionId") md with Some v => v | None => PNone end)
    with (field_of md "submissionId").
  destruct (field_of md "submissionId") as [| | | |s| |] eqn:Hs; try discriminate.
  - intros _. exists None. by split.
  - simpl. destruct (String.eqb s "") eqn:Es; simpl.
    + intros _. exists None. by split.
    + intros [Ha Hr]%andb_true_iff.
      apply files_ok_ids in Ha as (la & a_ids & Ha & Ha').
      apply files_ok_ids in Hr as (lr & s_ids & Hr & Hr').
      unfold field_of in Ha, Hr. unfold default in Ha, Hr. simpl in Ha, Hr.
      rewrite Ha. simpl. rewrite Hr. simpl. rewrite Ha'. simpl. rewrite Hr'. simpl.
      eexists. split; [done|]. by intros kv [= <-].
Qed.

Lemma extract_loop_total records : forall result,
  Forall (fun r => schema_ok json_loads r = true) records ->
  exists out, extract_loop json_loads result records = Ok out.
Proof.
  induction records as [|r rs IH]; intros result H; simpl; [eauto|].
  inversion H as [|? ? Hr Hrs]; subst.
  destruct (schema_ok_entry _ Hr) as (e & He & Hh).
  unfold extract_step. rewrite He. simpl. destruct e as [[k v]|]; simpl.
  - unfold py_setitem. pose proof (Hh _ eq_refl) as Hk. simpl in Hk.
    rewrite Hk. simpl. by apply IH.
  - by apply IH.
Qed.

Lemma extract_file_ids_total records :
  Forall (fun r => schema_ok json_loads r = true) records ->
  exists out, extract_file_ids json_loads records = Ok out.
Proof. apply extract_loop_total. Qed.

End FetcherResults.

Section FetcherClaims.

Context (json_loads : string -> except pyval).

(** C4, as amended.  Whenever [extract_file_ids] returns a mapping: the
    lines without a (non-empty) submissionId are excluded from it
    (dropping them from the input changes nothing, and every key of the
    mapping is the submissionId of a line that carries one); the number of
    keys is the number of distinct submissionIds carried by the lines,
    which is the number of such lines when no submissionId repeats. *)
Theorem extract_key_count records out :
  extract_file_ids json_loads records = Ok out ->
  extract_file_ids json_loads (filter (fun r => carries_id r = true) records) = Ok out
  /\ (forall k, k ∈ out.*1 ->
        exists r, r ∈ records /\ submission_id_of r = Ok k /\ py_truthy k = true)
  /\ length out = length (remove_dups (key_of <$> submission_ids records))
  /\ (NoDup (key_of <$> submission_ids records) ->
        length out = length (filter (fun r => carries_id r = true) records)).
Proof.
  intros H. apply extract_loop_entries in H as (es & Hes & Hhash & ->).
  assert (Hkeys : kof <$> es = key_of <$> submission_ids records).
  { rewrite <- (stored_entries_ids _ _ _ Hes). by rewrite <- list_fmap_compose. }
  assert (Hlen : length (store_all [] es)
                 = length (remove_dups (key_of <$> submission_ids records))).
  { rewrite <- (length_fmap kof (store_all [] es)). apply Permutation_length.
    apply NoDup_Permutation.
    - apply store_all_NoDup. constructor.
    - apply NoDup_remove_dups.
    - intros x. rewrite store_all_keys, elem_of_remove_dups, <- Hkeys.
      rewrite fmap_nil, elem_of_nil. tauto. }
  split; [|split; [|split]].
  - apply entries_extract_loop; [|done]. by apply stored_entries_filter.
  - intros k Hk. apply store_all_fst in Hk as [Hk|Hk]; [by apply elem_of_nil in Hk|].
    apply list_elem_of_fmap in Hk as ([k' v] & -> & He).
    destruct (stored_entries_from _ _ _ _ Hes He) as (r & Hr & Hre).
    exists r. split; [done|]. by apply record_entry_key in Hre.
  - exact Hlen.
  - intros Hnd. rewrite Hlen, carries_id_count.
    rewrite <- (length_fmap key_of (submission_ids records)).
    apply Permutation_length, NoDup_Permutation; [apply NoDup_remove_dups|done|].
    intros x. apply elem_of_remove_dups.
Qed.

(** C5, as amended.  A file field that is absent or null, empty, not a
    string, or a string on which the decoder raises [JSONDecodeError] (or
    [TypeError]) gives the empty list for its category, and the record is
    stored without an error on its account: the other category keeps what
    its own field gives. *)
Theorem undecodable_field_is_empty d md sid :
  default (PDict []) (dict_lookup (PStr "metadata") d) = PDict md ->
  field_of md "submissionId" = sid ->
  py_truthy sid = true ->
  (forall v, undecodable json_loads v ->
     parse_file_field json_loads v = Ok (PList [])
     /\ field_ids json_loads v = Ok (PList []))
  /\ (forall s_ids,
        undecodable json_loads (field_of md "nucleotideAlignment") ->
        field_ids json_loads (field_of md "siloReads") = Ok s_ids ->
        record_entry json_loads (PDict d)
        = Ok (Some (sid, PDict [(PStr "nucleotideAlignment", PList []);
                                (PStr "siloReads", s_ids)])))
  /\ (forall a_ids,
        undecodable json_loads (field_of md "siloReads") ->
        field_ids json_loads (field_of md "nucleotideAlignment") = Ok a_ids ->
        record_entry json_loads (PDict d)
        = Ok (Some (sid, PDict [(PStr "nucleotideAlignment", a_ids);
                                (PStr "siloReads", PList [])])))
  /\ (forall result,
        undecodable json_loads (field_of md "nucleotideAlignment") ->
        undecodable json_loads (field_of md "siloReads") ->
        hashable sid = true ->
        extract_step json_loads result (PDict d)
        = Ok (dict_store sid (PDict [(PStr "nucleotideAlignment", PList []);
                                     (PStr "siloReads", PList [])]) result)).
Proof.
  intros Hmd Hsid Ht.
  assert (Hentry : forall a_ids s_ids,
    field_ids json_loads (field_of md "nucleotideAlignment") = Ok a_ids ->
    field_ids json_loads (field_of md "siloReads") = Ok s_ids ->
    record_entry json_loads (PDict d)
    = Ok (Some (sid, PDict [(PStr "nucleotideAlignment", a_ids);
                            (PStr "siloReads", s_ids)]))).
  { intros a_ids s_ids Ha Hs. unfold field_ids in Ha, Hs. bind_inv Ha. bind_inv Hs.
    unfold record_entry. simpl py_get at 1.
    change (match dict_lookup (PStr "metadata") d with Some v => v | None => PDict [] end)
      with (default (PDict []) (dict_lookup (PStr "metadata") d)).
    rewrite Hmd. simpl bind.
    change (match dict_lookup (PStr "submissionId") md with Some v => v | None => PNone end)
      with (field_of md "submissionId").
    rewrite Hsid, Ht. simpl negb. cbv iota.
    change (match dict_lookup (PStr "nucleotideAlignment") md with
            | Some v => v | None => PNone end)
      with (field_of md "nucleotideAlignment").
    change (match dict_lookup (PStr "siloReads") md with
            | Some v => v | None => PNone end)
      with (field_of md "siloReads").
    rewrite Hx. simpl bind. rewrite Hx0. simpl bind. rewrite Ha. simpl bind.
    by rewrite Hs. }
  assert (Hempty : forall v, undecodable json_loads v ->
    field_ids json_loads v = Ok (PList [])).
  { intros v Hv. unfold field_ids. by rewrite (parse_undecodable _ _ Hv). }
  split; [|split; [|split]].
  - intros v Hv. split; [by apply parse_undecodable | by apply Hempty].
  - intros s_ids Hu Hs. apply Hentry; [by apply Hempty | done].
  - intros a_ids Hu Ha. apply Hentry; [done | by apply Hempty].
  - intros result Hua Hus Hh. unfold extract_step.
    rewrite (Hentry _ _ (Hempty _ Hua) (Hempty _ Hus)). simpl.
    unfold py_setitem. by rewrite Hh.
Qed.

(** The handler of [parse_file_field] names two exceptions and no more:
    any other one the decoder raises on a file field -- a [RecursionError]
    on deep nesting, a [ValueError] on an integer of too many digits --
    ends the extraction, whatever the other records hold. *)
Lemma uncaught_decoder_error_ends_extraction earlier d md category s e later out :
  extract_file_ids json_loads earlier = Ok out ->
  default (PDict []) (dict_lookup (PStr "metadata") d) = PDict md ->
  py_truthy (field_of md "submissionId") = true ->
  category = "nucleotideAlignment"
  \/ (category = "siloReads"
      /\ exists files, parse_file_field json_loads (field_of md "nucleotideAlignment")
                       = Ok files) ->
  field_of md category = PStr s ->
  s <> "" -> json_loads s = Raise e -> caught e = false ->
  extract_file_ids json_loads (earlier ++ PDict d :: later) = Raise e.
Proof.
  intros Hout Hmd Ht Hcat Hf Hs He Hc.
  assert (Hentry : record_entry json_loads (PDict d) = Raise e).
  { unfold record_entry. simpl py_get at 1.
    change (match dict_lookup (PStr "metadata") d with Some v => v | None => PDict [] end)
      with (default (PDict []) (dict_lookup (PStr "metadata") d)).
    rewrite Hmd. simpl bind.
    change (match dict_lookup (PStr "submissionId") md with Some v => v | None => PNone end)
      with (field_of md "submissionId").
    rewrite Ht. simpl negb. cbv iota.
    change (match dict_lookup (PStr "nucleotideAlignment") md with
            | Some v => v | None => PNone end)
      with (field_of md "nucleotideAlignment").
    change (match dict_lookup (PStr "siloReads") md with
            | Some v => v | None => PNone end)
      with (field_of md "siloReads").
    destruct Hcat as [->|(-> & files & Hfiles)].
    - by rewrite Hf, (parse_uncaught _ _ _ Hs He Hc).
    - rewrite Hfiles. simpl bind. by rewrite Hf, (parse_uncaught _ _ _ Hs He Hc). }
  unfold extract_file_ids in *. revert Hout. generalize (@nil (pyval * pyval)).
  induction earlier as [|r rs IH]; intros result Hout; simpl.
  - unfold extract_step. by rewrite Hentry.
  - simpl in Hout. destruct (extract_step json_loads result r); [|discriminate].
    simpl in *. by apply IH.
Qed.

(** C9.  When several lines carry the same non-empty submissionId, the
    mapping has exactly one entry under it, and its value is the one the
    last such line stores. *)
Theorem last_record_wins earlier record later out k v :
  extract_file_ids json_loads (earlier ++ record :: later) = Ok out ->
  record_entry json_loads record = Ok (Some (k, v)) ->
  (forall r k', r ∈ later -> submission_id_of r = Ok k' -> py_truthy k' = true ->
                key_of k' <> key_of k) ->
  dict_lookup k out = Some v
  /\ length (filter (fun e => key_of e.1 = key_of k) out) = 1.
Proof.
  intros H Hr Hlater.
  apply extract_loop_entries in H as (es & Hes & _ & ->).
  apply stored_entries_app in Hes as (es1 & es2' & H1 & H2 & ->).
  simpl in H2. rewrite Hr in H2. simpl in H2. bind_inv H2. injection H2 as <-.
  assert (Hother : Forall (fun e => kof e <> key_of k) x).
  { apply Forall_forall. intros [k' v'] He.
    destruct (stored_entries_from _ _ _ _ Hx He) as (r & Hin & Hre).
    apply record_entry_key in Hre as [Hk' Ht']. by apply (Hlater r). }
  assert (Hlook : dict_lookup k (store_all [] (es1 ++ (k, v) :: x)) = Some v)
    by (by apply lookup_store_all_last).
  split; [done|].
  apply (NoDup_count_one _ (key_of k)).
  - apply store_all_NoDup. constructor.
  - by apply dict_lookup_Some_key in Hlook.
Qed.

(** C10.  Every category list of the output is the list of the non-empty
    [fileId]s of the parsed file array of some input line, in the order of
    the array: the entries whose [fileId] is absent, null or empty are
    left out, and every identifier kept is non-empty. *)
Theorem output_ids_are_nonempty records out entry :
  extract_file_ids json_loads records = Ok out ->
  entry ∈ out.*2 ->
  exists d md a_files s_files,
    PDict d ∈ records
    /\ default (PDict []) (dict_lookup (PStr "metadata") d) = PDict md
    /\ field_files json_loads (field_of md "nucleotideAlignment") = Ok a_files
    /\ field_files json_loads (field_of md "siloReads") = Ok s_files
    /\ let kept files := filter (fun v => py_truthy v = true) (file_id_of <$> files) in
       entry = PDict [(PStr "nucleotideAlignment", PList (kept a_files));
                      (PStr "siloReads", PList (kept s_files))]
       /\ Forall (fun v => py_truthy v = true) (kept a_files)
       /\ Forall (fun v => py_truthy v = true) (kept s_files)
       /\ (forall f, f ∈ a_files ++ s_files ->
             file_id_of f = PNone \/ file_id_of f = PStr "" ->
             file_id_of f ∉ kept a_files ++ kept s_files).
Proof.
  intros H He. apply extract_loop_entries in H as (es & Hes & _ & ->).
  apply store_all_snd in He as [He|He]; [by apply elem_of_nil in He|].
  apply list_elem_of_fmap in He as ([k v] & -> & He).
  destruct (stored_entries_from _ _ _ _ Hes He) as (r & Hr & Hre).
  apply record_entry_Some in Hre as (d & md & a_ids & s_ids & -> & Hmd & _ & _ & Ha & Hs & ->).
  unfold field_ids in Ha, Hs. bind_inv Ha. bind_inv Hs.
  apply file_ids_of_Ok in Ha as (a_files & Ha & ->).
  apply file_ids_of_Ok in Hs as (s_files & Hs & ->).
  exists d, md, a_files, s_files. unfold field_files. rewrite Hx, Hx0.
  repeat split; try done.
  - apply Forall_forall. by intros y [? _]%list_elem_of_filter.
  - apply Forall_forall. by intros y [? _]%list_elem_of_filter.
  - intros f _ Hf Hin.
    apply elem_of_app in Hin as [[Ht _]%list_elem_of_filter|[Ht _]%list_elem_of_filter];
      destruct Hf as [E|E]; rewrite E in Ht; discriminate.
Qed.

End FetcherClaims.

(** C4 as stated fails: two lines with the same submissionId make one
    key. *)
Lemma repeated_id_makes_one_key :
  let records := [record_S1_old; record_S1_new] in
  exists out, extract_file_ids Json.loads records = Ok out
              /\ length (filter (fun r => carries_id r = true) records) = 2
              /\ length out = 1.
Proof. eexists. split; [vm_compute; reflexivity|]. split; reflexivity. Qed.

Lemma extract_key_count_witness :
  let records := [record_S1_old; record_without_id; record_S2; record_S1_new] in
  exists out, extract_file_ids Json.loads records = Ok out
              /\ length out = 2
              /\ length (remove_dups (key_of <$> submission_ids records)) = 2.
Proof.
  eexists. split; [vm_compute; reflexivity|]. split; [reflexivity|].
  rewrite <- (proj1 (proj2 (proj2
    (extract_key_count Json.loads
       [record_S1_old; record_without_id; record_S2; record_S1_new] _ eq_refl)))).
  reflexivity.
Defined.
(* ===================================================================== *)
(** * Results on the scripts' effects *)
(* ===================================================================== *)

Lemma trace_of_prepend {A} tr (r : list event * Store * A) :
  trace_of (prepend tr r) = tr ++ trace_of r.
Proof. done. Qed.
Lemma store_of_prepend {A} tr (r : list event * Store * A) :
  store_of (prepend tr r) = store_of r.
Proof. done. Qed.
Lemma status_of_prepend {A} tr (r : list event * Store * A) :
  status_of (prepend tr r) = status_of r.
Proof. done. Qed.

Lemma pbind_emit {B} e (k : unit -> prog B) st :
  pbind (emit e) k st = prepend [e] (k tt st).
Proof. unfold pbind, emit, prepend. simpl. by destruct (k tt st) as [[??]?]. Qed.

Lemma pbind_print {B} l (k : unit -> prog B) st :
  pbind (print l) k st = prepend [Print l] (k tt st).
Proof. apply pbind_emit. Qed.

Lemma pbind_ret {A B} (a : A) (k : A -> prog B) st :
  pbind (ret a) k st = k a st.
Proof. unfold pbind, ret. simpl. by destruct (k a st) as [[??]?]. Qed.

Lemma pbind_lift_ok {A B} (a : A) (k : A -> prog B) st :
  pbind (lift (Ok a)) k st = k a st.
Proof. apply pbind_ret. Qed.

Lemma pbind_lift_raise {A B} e (k : A -> prog B) st :
  pbind (lift (Raise e)) k st = ([], st, inl (Uncaught e)).
Proof. done. Qed.

Lemma pbind_exit {A B} c (k : A -> prog B) st :
  pbind (sys_exit c) k st = ([], st, inl (Exit c)).
Proof. done. Qed.

Lemma pbind_ok {A B} (m : prog A) (k : A -> prog B) st tr st' a :
  m st = (tr, st', inr a) -> pbind m k st = prepend tr (k a st').
Proof.
  intros H. unfold pbind, prepend. rewrite H. by destruct (k a st') as [[??]?].
Qed.

Lemma pbind_assoc {A B C} (m : prog A) (k : A -> prog B) (k' : B -> prog C) st :
  pbind (pbind m k) k' st = pbind m (fun a => pbind (k a) k') st.
Proof.
  unfold pbind. destruct (m st) as [[tr st1] [s|a]]; [done|].
  destruct (k a st1) as [[tr1 st2] [s|b]]; [done|].
  destruct (k' b st2) as [[tr2 st3] r]. by rewrite app_assoc.
Qed.

Lemma print_all_run ls st : print_all ls st = (Print <$> ls, st, inr tt).
Proof.
  revert st; induction ls as [|l ls IH]; intros st; [done|].
  simpl print_all. rewrite pbind_print, IH. done.
Qed.

Lemma pbind_print_all {B} ls (k : unit -> prog B) st :
  pbind (print_all ls) k st = prepend (Print <$> ls) (k tt st).
Proof.
  unfold pbind. rewrite print_all_run. unfold prepend.
  by destruct (k tt st) as [[??]?].
Qed.

Lemma delete_calls_app tr1 tr2 :
  delete_calls (tr1 ++ tr2) = delete_calls tr1 ++ delete_calls tr2.
Proof. apply omap_app. Qed.
Lemma input_calls_app tr1 tr2 :
  input_calls (tr1 ++ tr2) = input_calls tr1 ++ input_calls tr2.
Proof. apply omap_app. Qed.
Lemma printed_app tr1 tr2 : printed (tr1 ++ tr2) = printed tr1 ++ printed tr2.
Proof. apply omap_app. Qed.

Lemma delete_calls_prints ls : delete_calls (Print <$> ls) = [].
Proof. induction ls; [done|]. simpl. done. Qed.
Lemma input_calls_prints ls : input_calls (Print <$> ls) = [].
Proof. induction ls; [done|]. simpl. done. Qed.
Lemma printed_prints ls : printed (Print <$> ls) = ls.
Proof. induction ls as [|l ls IH]; [done|]. simpl. f_equal. exact IH. Qed.

(** ** Quiet scripts *)

Lemma quiet_ret {A} (a : A) : quiet (ret a).
Proof. by intros st. Qed.
Lemma quiet_print l : quiet (print l).
Proof. by intros st. Qed.
Lemma quiet_load path : quiet (emit (LoadJson path)).
Proof. by intros st. Qed.
Lemma quiet_exit {A} c : quiet (@sys_exit A c).
Proof. by intros st. Qed.
Lemma quiet_lift {A} (m : except A) : quiet (lift m).
Proof. intros st. by destruct m. Qed.
Lemma quiet_bind {A B} (m : prog A) (k : A -> prog B) :
  quiet m -> (forall a, quiet (k a)) -> quiet (pbind m k).
Proof.
  intros Hm Hk st. unfold pbind. specialize (Hm st).
  unfold store_of, trace_of in *.
  destruct (m st) as [[tr st1] [s|a]]; [done|].
  destruct Hm as (Hst & Hd & Hi). simpl in Hst, Hd, Hi. subst st1.
  specialize (Hk a st). destruct (k a st) as [[tr' st2] r].
  destruct Hk as (Hst' & Hd' & Hi'). unfold store_of, trace_of in *. simpl in *.
  by rewrite delete_calls_app, input_calls_app, Hd, Hi, Hd', Hi'.
Qed.
Lemma quiet_print_all ls : quiet (print_all ls).
Proof.
  intros st. rewrite print_all_run. unfold store_of, trace_of. simpl.
  by rewrite delete_calls_prints, input_calls_prints.
Qed.

Section SelectiveDeleterFacts.

Context (py_str : pyval -> string) (exn_str : pyexn -> string).

Lemma show_preview_run files st :
  show_preview py_str files st = (Print <$> preview_lines py_str files, st, inr tt).
Proof.
  unfold show_preview, preview_lines.
  rewrite !pbind_print, pbind_print_all.
  destruct (10 <? length files)%nat.
  - rewrite !pbind_print. unfold print, emit, prepend. simpl.
    rewrite !fmap_app. simpl. done.
  - rewrite pbind_ret. unfold print, emit, prepend. simpl.
    rewrite !fmap_app. simpl. done.
Qed.

Lemma quiet_show_preview files : quiet (show_preview py_str files).
Proof.
  intros st. rewrite show_preview_run. unfold store_of, trace_of. simpl.
  by rewrite delete_calls_prints, input_calls_prints.
Qed.

Lemma pbind_show_preview {B} files (k : unit -> prog B) st :
  pbind (show_preview py_str files) k st
  = prepend (Print <$> preview_lines py_str files) (k tt st).
Proof.
  unfold pbind. rewrite show_preview_run. unfold prepend.
  by destruct (k tt st) as [[??]?].
Qed.

Lemma collect_needs_dict file_ids prefix file_type files :
  collect_files_to_delete py_str file_ids prefix file_type = Ok files ->
  exists items, file_ids = PDict items.
Proof. destruct file_ids; try discriminate. eauto. Qed.

(** [main] up to the count of targets, on a run that gets that far. *)
Lemma main_opening argv w st opts f b p a s e rg rest items files :
  parse_args_loop argv [] no_options = Some (f :: b :: p :: a :: s :: e :: rg :: rest, opts) ->
  type_rejected (file_type opts) = false ->
  load_file_ids w f = Ok (PDict items) ->
  collect_files_to_delete py_str (PDict items) p (file_type opts) = Ok files ->
  main py_str exn_str argv w st
  = prepend (opening f (length items) (length files))
      (match files with
       | [] => print "No files to delete." st
       | _ =>
           prepend (Print <$> preview_lines py_str files)
             (if dry_run opts
              then prepend [Print (nl +:+ "[DRY RUN] No files were deleted.")]
                     (print (would_delete_line (length files) b) st)
              else confirm_and_delete py_str exn_str w b a s (normalize_endpoint e) rg
                     files st)
       end).
Proof.
  intros Hparse Htype Hload Hcollect.
  unfold main, parse_args. rewrite Hparse, pbind_ret. cbn [fst snd].
  unfold main_body. cbv zeta. rewrite Htype.
  rewrite pbind_print, pbind_emit, Hload, pbind_lift_ok.
  simpl py_len. rewrite pbind_lift_ok, pbind_print, Hcollect, pbind_lift_ok, pbind_print.
  unfold opening, prepend at 1 2 3 4. simpl.
  destruct files as [|t files]; [done|].
  rewrite pbind_show_preview.
  destruct (dry_run opts); [|done]. by rewrite pbind_print.
Qed.

End SelectiveDeleterFacts.

Section SelectiveDeleterClaims.

Context (py_str : pyval -> string) (exn_str : pyexn -> string).

Lemma s3_key_of_string prefix fid :
  s3_key_of py_str prefix (PStr fid) = PStr (prefix +:+ fid).
Proof. unfold s3_key_of. by destruct prefix. Qed.

Lemma collect_category_from sid ids prefix category ts t :
  collect_category py_str sid ids prefix category = Ok ts -> t ∈ ts ->
  exists l fs file_id,
    py_get ids category (PList []) = Ok l /\ py_iter l = Ok fs /\ file_id ∈ fs
    /\ t = (sid, category, s3_key_of py_str prefix file_id).
Proof.
  unfold collect_category. intros H Ht. bind_inv H. bind_inv H. injection H as <-.
  apply list_elem_of_fmap in Ht as (file_id & -> & Hin).
  exists x, x0, file_id. by repeat split.
Qed.

Lemma collect_items_from items prefix file_type files t :
  collect_items py_str items prefix file_type = Ok files -> t ∈ files ->
  exists ids l fs file_id,
    (t.1.1, ids) ∈ items
    /\ py_get ids t.1.2 (PList []) = Ok l /\ py_iter l = Ok fs /\ file_id ∈ fs
    /\ t.2 = s3_key_of py_str prefix file_id.
Proof.
  revert files; induction items as [|[sid ids] items IH]; intros files H Ht; simpl in H.
  - injection H as <-. by apply elem_of_nil in Ht.
  - bind_inv H. bind_inv H. injection H as <-.
    apply elem_of_app in Ht as [Ht|Ht].
    + bind_inv Hx. bind_inv Hx. injection Hx as <-.
      assert (exists category l fs file_id,
                py_get ids category (PList []) = Ok l /\ py_iter l = Ok fs
                /\ file_id ∈ fs /\ t = (sid, category, s3_key_of py_str prefix file_id))
        as (category & l & fs & file_id & Hl & Hfs & Hin & ->).
      { apply elem_of_app in Ht as [Ht|Ht].
        - destruct (type_selects file_type "nucleotideAlignment").
          + destruct (collect_category_from _ _ _ _ _ _ Hx1 Ht) as (l & fs & fid & ?).
            by exists "nucleotideAlignment", l, fs, fid.
          + injection Hx1 as <-. by apply elem_of_nil in Ht.
        - destruct (type_selects file_type "siloReads").
          + destruct (collect_category_from _ _ _ _ _ _ Hx2 Ht) as (l & fs & fid & ?).
            by exists "siloReads", l, fs, fid.
          + injection Hx2 as <-. by apply elem_of_nil in Ht. }
      exists ids, l, fs, file_id. simpl. split; [apply list_elem_of_here|done].
    + destruct (IH _ Hx0 Ht) as (ids' & l & fs & file_id & Hin & ?).
      exists ids', l, fs, file_id. split; [by apply list_elem_of_further|done].
Qed.

(** C3.  The key of every target the Selective Deleter emits is the prefix
    followed by the file identifier it was made from, with nothing in
    between; this includes the empty prefix. *)
Theorem key_is_prefix_then_id file_ids prefix file_type files sid category key :
  collect_files_to_delete py_str file_ids prefix file_type = Ok files ->
  (sid, category, key) ∈ files ->
  exists items ids l fs file_id,
    file_ids = PDict items
    /\ (sid, ids) ∈ items
    /\ py_get ids category (PList []) = Ok l
    /\ py_iter l = Ok fs
    /\ file_id ∈ fs
    /\ key = s3_key_of py_str prefix file_id
    /\ (forall fid, file_id = PStr fid -> key = PStr (prefix +:+ fid)).
Proof.
  intros H Ht. destruct (collect_needs_dict _ _ _ _ _ H) as [items ->].
  destruct (collect_items_from _ _ _ _ _ H Ht) as (ids & l & fs & file_id & ? & ? & ? & ? & Hk).
  simpl in *. exists items, ids, l, fs, file_id. repeat split; try done.
  intros fid ->. by rewrite Hk, s3_key_of_string.
Qed.

Lemma delete_object_cases bucket key st :
  (exists st', delete_object bucket key st = ([DeleteObject bucket key], st', inr tt))
  \/ (exists e, delete_object bucket key st
                = ([DeleteObject bucket key], st, inl (Uncaught e))).
Proof.
  unfold delete_object. destruct key; eauto.
  destruct (String.eqb s ""); eauto.
  destruct (refuses st (objects st) bucket s); eauto.
Qed.

(** The deletion loop: every target is tried once, in order; it never
    stops early; the counters grow by the calls that succeeded and by
    those that raised. *)
Lemma delete_files_run bucket files : forall deleted_count error_count st,
  let keys := (fun t : target => t.2) <$> files in
  let outcomes := delete_outcomes bucket keys st in
  exists tr st',
    delete_files py_str exn_str bucket files deleted_count error_count st
    = (tr, st',
       inr (deleted_count + length (filter (fun o => o = true) outcomes),
            error_count + length (filter (fun o => o = false) outcomes))%nat)
    /\ delete_calls tr = (fun t : target => (bucket, t.2)) <$> files
    /\ input_calls tr = []
    /\ length outcomes = length files.
Proof.
  induction files as [|[[sid ftype] key] files IH]; intros d e st.
  - exists [], st. simpl. rewrite !Nat.add_0_r. done.
  - simpl delete_files. simpl fmap. simpl delete_outcomes.
    destruct (delete_object_cases bucket key st) as [(st1 & E)|(err & E)].
    + unfold pbind at 1. unfold try_, pbind at 1. rewrite E. simpl.
      destruct (IH (S d) e st1) as (tr & st' & -> & Hd & Hi & Hl).
      eexists _, st'. rewrite !filter_cons. simpl.
      rewrite Nat.add_succ_r. split; [reflexivity|].
      split; [cbn; f_equal; exact Hd|]. split; [exact Hi | f_equal; exact Hl].
    + unfold pbind at 1. unfold try_, pbind at 1. rewrite E. simpl.
      rewrite pbind_print.
      destruct (IH d (S e) st) as (tr & st' & -> & Hd & Hi & Hl).
      eexists _, st'. unfold prepend. simpl. rewrite !filter_cons. simpl.
      rewrite Nat.add_succ_r. split; [reflexivity|].
      split; [cbn; f_equal; exact Hd|]. split; [exact Hi | f_equal; exact Hl].
Qed.

End SelectiveDeleterClaims.

Section SelectiveDeleterRuns.

Context (py_str : pyval -> string) (exn_str : pyexn -> string).

Lemma quiet_main_body_dry w opts f b p a s e rg :
  dry_run opts = true ->
  quiet (main_body py_str exn_str w opts f b p a s e rg).
Proof.
  intros Hdry. unfold main_body. cbv zeta. rewrite Hdry.
  destruct (type_rejected (file_type opts)).
  - apply quiet_bind; [apply quiet_print | intros; apply quiet_exit].
  - apply quiet_bind; [apply quiet_print | intros _].
    apply quiet_bind; [apply quiet_load | intros _].
    apply quiet_bind; [apply quiet_lift | intros file_ids].
    apply quiet_bind; [apply quiet_lift | intros n].
    apply quiet_bind; [apply quiet_print | intros _].
    apply quiet_bind; [apply quiet_lift | intros files].
    apply quiet_bind; [apply quiet_print | intros _].
    destruct files; [apply quiet_print|].
    apply quiet_bind; [apply quiet_show_preview | intros _].
    apply quiet_bind; [apply quiet_print | intros _; apply quiet_print].
Qed.

Lemma quiet_usage : quiet (print_all usage_lines;; @sys_exit unit 1).
Proof. apply quiet_bind; [apply quiet_print_all | intros; apply quiet_exit]. Qed.

(** C1.  Dry-run not set, a non-empty target list, and anything but
    [DELETE] typed at the prompt: no delete call is made, the store is as
    it was, and the program exits with code 0. *)
Theorem declined_confirmation_deletes_nothing
    argv w st opts f b p a s e rg rest file_ids files typed :
  parse_args_loop argv [] no_options
    = Some (f :: b :: p :: a :: s :: e :: rg :: rest, opts) ->
  dry_run opts = false ->
  type_rejected (file_type opts) = false ->
  load_file_ids w f = Ok file_ids ->
  collect_files_to_delete py_str file_ids p (file_type opts) = Ok files ->
  files <> [] ->
  stdin w = Ok typed ->
  typed <> "DELETE" ->
  let r := run (main py_str exn_str argv w) st in
  delete_calls (trace_of r) = []
  /\ store_of r = st
  /\ status_of r = inl (Exit 0)
  /\ exit_code (status_of r) = Some 0%Z
  /\ input_calls (trace_of r) = ["Type 'DELETE' to confirm: "].
Proof.
  intros Hparse Hdry Htype Hload Hcollect Hne Hin Htyped r. subst r. unfold run.
  destruct (collect_needs_dict _ _ _ _ _ Hcollect) as [items ->].
  rewrite (main_opening _ _ _ _ _ _ _ _ _ _ _ _ _ _ _ _ Hparse Htype Hload Hcollect).
  destruct files as [|t files]; [done|]. rewrite Hdry.
  unfold confirm_and_delete.
  rewrite pbind_print, pbind_emit, Hin, pbind_lift_ok.
  apply String.eqb_neq in Htyped. rewrite Htyped.
  change (negb false) with true. cbv iota.
  rewrite pbind_print.
  rewrite !trace_of_prepend, !store_of_prepend, !status_of_prepend.
  rewrite !delete_calls_app, !input_calls_app, delete_calls_prints, input_calls_prints.
  done.
Qed.

(** C2.  With [--dry-run] set, whatever the other arguments and the
    document: no delete call, no read of the prompt, the store as it was;
    and on a run that gets to build its target list, the total count is
    printed and the program ends there. *)
Theorem dry_run_changes_nothing argv w st positional opts :
  parse_args_loop argv [] no_options = Some (positional, opts) ->
  dry_run opts = true ->
  let r := run (main py_str exn_str argv w) st in
  delete_calls (trace_of r) = []
  /\ input_calls (trace_of r) = []
  /\ store_of r = st
  /\ (forall f b p a s e rg rest file_ids files,
        positional = f :: b :: p :: a :: s :: e :: rg :: rest ->
        type_rejected (file_type opts) = false ->
        load_file_ids w f = Ok file_ids ->
        collect_files_to_delete py_str file_ids p (file_type opts) = Ok files ->
        status_of r = inr tt
        /\ found_line (length files) ∈ printed (trace_of r)
        /\ (files <> [] ->
            last (printed (trace_of r)) = Some (would_delete_line (length files) b))).
Proof.
  intros Hparse Hdry r. subst r. unfold run.
  assert (Hq : quiet (main py_str exn_str argv w)).
  { intros st'. unfold main, parse_args. rewrite Hparse, pbind_ret. cbn [fst snd].
    destruct positional as [|f [|b [|p [|a [|s [|e [|rg rest]]]]]]];
      try apply (quiet_usage st').
    by apply quiet_main_body_dry. }
  destruct (Hq st) as (Hst & Hd & Hi).
  split; [done|]. split; [done|]. split; [done|].
  intros f b p a s e rg rest file_ids files -> Htype Hload Hcollect.
  destruct (collect_needs_dict _ _ _ _ _ Hcollect) as [items ->].
  rewrite (main_opening _ _ _ _ _ _ _ _ _ _ _ _ _ _ _ _ Hparse Htype Hload Hcollect).
  rewrite Hdry.
  destruct files as [|t files].
  - rewrite status_of_prepend, trace_of_prepend, printed_app. split; [done|].
    split; [|done]. apply elem_of_app. left. unfold opening. simpl.
    do 2 apply list_elem_of_further. apply list_elem_of_here.
  - rewrite !status_of_prepend, !trace_of_prepend, !printed_app, printed_prints.
    split; [done|]. split.
    + apply elem_of_app. left. unfold opening. simpl.
      do 2 apply list_elem_of_further. apply list_elem_of_here.
    + intros _. rewrite !app_assoc. apply last_snoc.
Qed.

End SelectiveDeleterRuns.

Lemma outcomes_split (l : list bool) :
  (length (filter (fun o => o = true) l) + length (filter (fun o => o = false) l))%nat
  = length l.
Proof.
  induction l as [|[] l IH]; [done| |]; rewrite !filter_cons; simpl; lia.
Qed.

Section SelectiveDeleterLoop.

Context (py_str : pyval -> string) (exn_str : pyexn -> string).

(** C7.  Once the deletion is confirmed, each target is tried exactly
    once, in order, whatever the store answers to the others; the run
    reaches its summary, where the successes and the errors add up to the
    number of targets. *)
Theorem every_target_is_attempted_once
    argv w st opts f b p a s e rg rest file_ids files :
  parse_args_loop argv [] no_options
    = Some (f :: b :: p :: a :: s :: e :: rg :: rest, opts) ->
  dry_run opts = false ->
  type_rejected (file_type opts) = false ->
  load_file_ids w f = Ok file_ids ->
  collect_files_to_delete py_str file_ids p (file_type opts) = Ok files ->
  files <> [] ->
  stdin w = Ok "DELETE" ->
  boto3_client w a s (normalize_endpoint e) rg = Ok tt ->
  let r := run (main py_str exn_str argv w) st in
  let outcomes := delete_outcomes b ((fun t : target => t.2) <$> files) st in
  let deleted_count := length (filter (fun o => o = true) outcomes) in
  let error_count := length (filter (fun o => o = false) outcomes) in
  status_of r = inr tt
  /\ delete_calls (trace_of r) = (fun t : target => (b, t.2)) <$> files
  /\ length outcomes = length files
  /\ (deleted_count + error_count)%nat = length files
  /\ exists before,
       printed (trace_of r)
       = before ++ summary_lines deleted_count error_count (length files).
Proof.
  intros Hparse Hdry Htype Hload Hcollect Hne Hin Hclient r outcomes d e'.
  subst r. unfold run.
  destruct (collect_needs_dict _ _ _ _ _ Hcollect) as [items ->].
  rewrite (main_opening _ _ _ _ _ _ _ _ _ _ _ _ _ _ _ _ Hparse Htype Hload Hcollect).
  destruct (delete_files_run py_str exn_str b files 0 0 st)
    as (tr & st' & Hrun & Hd & Hi & Hl).
  fold outcomes in Hrun, Hl. simpl in Hrun. fold d e' in Hrun.
  assert (Hsum : (d + e')%nat = length files)
    by (unfold d, e'; by rewrite outcomes_split).
  destruct files as [|t files]; [done|]. rewrite Hdry.
  unfold confirm_and_delete.
  rewrite pbind_print, pbind_emit, Hin, pbind_lift_ok.
  change (negb ("DELETE" =? "DELETE")%string) with false. cbv iota.
  rewrite pbind_emit, Hclient, pbind_lift_ok.
  rewrite (pbind_ok _ _ _ _ _ _ Hrun). cbn [fst snd]. rewrite print_all_run.
  rewrite !status_of_prepend, !trace_of_prepend.
  unfold status_of, trace_of. cbn [fst snd].
  split; [done|]. split.
  - rewrite !delete_calls_app, !delete_calls_prints, Hd.
    change (delete_calls (opening f (length items) (length (t :: files)))) with
      (@nil (string * pyval)).
    simpl app. by rewrite app_nil_r.
  - split; [done|]. split; [done|].
    rewrite !printed_app, !printed_prints. eexists. rewrite !app_assoc. reflexivity.
Qed.

End SelectiveDeleterLoop.

(* ===================================================================== *)
(** * Results on the listing and the Prefix Deleter *)
(* ===================================================================== *)

Lemma string_compare_refl s : String.compare s s = Eq.
Proof.
  pose proof (String.compare_antisym s s) as H.
  destruct (String.compare s s); simpl in H; congruence.
Qed.

Lemma string_ltb_le a b : String.ltb a b = true <-> String.le a b /\ a <> b.
Proof.
  unfold String.ltb, String.le, String.leb.
  destruct (String.compare a b) eqn:E; simpl.
  - apply String.compare_eq_iff in E. split; [discriminate|]. intros [_ H]. done.
  - split; [|done]. intros _. split; [done|]. intros ->.
    rewrite string_compare_refl in E. discriminate.
  - split; [discriminate|]. intros [H _]. done.
Qed.

Lemma string_ltb_trans a b c :
  String.ltb a b = true -> String.ltb b c = true -> String.ltb a c = true.
Proof.
  rewrite !string_ltb_le. intros [Hab Hne] [Hbc Hne']. split.
  - by transitivity b.
  - intros ->. apply Hne. by apply (anti_symm String.le).
Qed.

Lemma string_le_ltb a b : String.le a b -> String.ltb b a = false.
Proof.
  intros H. destruct (String.ltb b a) eqn:E; [|done].
  apply string_ltb_le in E as [H' Hne]. destruct Hne. by apply (anti_symm String.le).
Qed.

Section Listing.

Context (st : Store) (bucket prefix : string).

Lemma keys_under_spec k :
  k ∈ keys_under st bucket prefix <-> holds_under st bucket prefix k.
Proof.
  unfold keys_under, holds_under. rewrite merge_sort_Permutation.
  rewrite list_elem_of_filter, list_elem_of_fmap. split.
  - intros [Hp ([b' k'] & -> & Hin)]. apply list_elem_of_filter in Hin as [Hb Hin].
    simpl in *. subst b'. apply elem_of_elements in Hin. done.
  - intros [Hin Hp]. split; [done|]. exists (bucket, k). split; [done|].
    apply list_elem_of_filter. split; [done|]. by apply elem_of_elements.
Qed.

Lemma keys_under_NoDup : NoDup (keys_under st bucket prefix).
Proof.
  unfold keys_under. rewrite merge_sort_Permutation.
  apply NoDup_filter. apply NoDup_fmap_2_strong.
  - intros [b1 k1] [b2 k2] [Hb1 _]%list_elem_of_filter [Hb2 _]%list_elem_of_filter E.
    simpl in *. congruence.
  - apply NoDup_filter, NoDup_elements.
Qed.

Lemma keys_under_sorted : StronglySorted String.le (keys_under st bucket prefix).
Proof. apply StronglySorted_merge_sort; apply _. Qed.

End Listing.

Lemma StronglySorted_filter_le (P : string -> Prop) `{!forall x, Decision (P x)} l :
  StronglySorted String.le l -> StronglySorted String.le (filter P l).
Proof.
  induction 1 as [|x l Hl IH Hx]; [constructor|].
  rewrite filter_cons. destruct (decide (P x)); [|done].
  constructor; [done|]. apply Forall_forall. intros y [_ Hy]%list_elem_of_filter.
  by eapply Forall_forall in Hx.
Qed.

(** Two duplicate-free ascending lists with the same elements are the
    same list. *)
Lemma sorted_lists_equal (l1 l2 : list string) :
  StronglySorted String.le l1 -> StronglySorted String.le l2 ->
  NoDup l1 -> NoDup l2 -> (forall k, k ∈ l1 <-> k ∈ l2) -> l1 = l2.
Proof.
  intros H1 H2 N1 N2 E. apply (StronglySorted_unique String.le); [done..|].
  by apply NoDup_Permutation.
Qed.

Lemma sorted_app_lt (l1 l2 : list string) x y :
  StronglySorted String.le (l1 ++ l2) -> NoDup (l1 ++ l2) ->
  x ∈ l1 -> y ∈ l2 -> String.ltb x y = true.
Proof.
  intros Hs Hn Hx Hy. apply string_ltb_le. split.
  - by eapply StronglySorted_app_1_elem_of.
  - intros ->. apply NoDup_app in Hn as (_ & Hn & _). by apply (Hn y).
Qed.

Section Pagination.

Context (bucket prefix : string).

Lemma listing_spec st token k :
  k ∈ listing st bucket prefix token
  <-> holds_under st bucket prefix k /\ after_token token k = true.
Proof.
  unfold listing. rewrite list_elem_of_filter, keys_under_spec. tauto.
Qed.

Lemma listing_sorted st token :
  StronglySorted String.le (listing st bucket prefix token).
Proof. apply StronglySorted_filter_le, keys_under_sorted. Qed.

Lemma listing_NoDup st token : NoDup (listing st bucket prefix token).
Proof. apply NoDup_filter, keys_under_NoDup. Qed.

Lemma listing_all st : listing st bucket prefix None = keys_under st bucket prefix.
Proof.
  unfold listing. induction (keys_under st bucket prefix) as [|k l IH]; [done|].
  rewrite filter_cons_True; [by rewrite IH | done].
Qed.

(** Deleting a whole page and asking for what follows its last key gives
    the rest of the listing: the deletions do not make the listing skip
    or repeat a key. *)
Lemma listing_after_page st st' token page more last_key :
  listing st bucket prefix token = page ++ more ->
  last page = Some last_key ->
  (forall o, o ∈ objects st' <->
             o ∈ objects st /\ o ∉ (fun k => (bucket, k)) <$> page) ->
  listing st' bucket prefix (Some last_key) = more.
Proof.
  intros Hl Hlast Hobj.
  pose proof (listing_sorted st token) as Hs.
  pose proof (listing_NoDup st token) as Hn. rewrite Hl in Hs, Hn.
  assert (Hlk : last_key ∈ page) by (by apply last_Some_elem_of).
  apply sorted_lists_equal.
  - apply listing_sorted.
  - by apply StronglySorted_app_1_r in Hs.
  - apply listing_NoDup.
  - by apply NoDup_app in Hn as (_ & _ & ?).
  - intros k. rewrite listing_spec. unfold holds_under. rewrite Hobj. split.
    + intros [[[Hin Hnot] Hp] Hafter]. simpl in Hafter.
      assert (Hk : k ∈ page ++ more).
      { rewrite <- Hl. apply listing_spec. split; [done|].
        destruct token as [t|]; [|done]. simpl.
        apply (string_ltb_trans _ last_key); [|done].
        assert (Ht : last_key ∈ listing st bucket prefix (Some t))
          by (rewrite Hl; apply elem_of_app; by left).
        by apply listing_spec in Ht as [_ Ht]. }
      apply elem_of_app in Hk as [Hk|Hk]; [|done].
      destruct Hnot. apply list_elem_of_fmap. by exists k.
    + intros Hk.
      assert (Hk' : k ∈ listing st bucket prefix token)
        by (rewrite Hl; apply elem_of_app; by right).
      apply listing_spec in Hk' as [[Hin Hp] _].
      split; [split; [split; [done|]|done]|].
      * intros (k0 & [= <-] & Hk')%list_elem_of_fmap.
        apply NoDup_app in Hn as (_ & Hn & _). by apply (Hn k).
      * simpl. by apply (sorted_app_lt page more).
Qed.

(** The inner loop over a page the store does not refuse to delete. *)
Lemma delete_contents_run keys : forall deleted_count st,
  (forall k, k ∈ keys -> k <> "") ->
  (forall objs k, k ∈ keys -> refuses st objs bucket k = None) ->
  exists tr st',
    delete_contents bucket keys deleted_count st
    = (tr, st', inr (deleted_count + length keys)%nat)
    /\ delete_calls tr = (fun k => (bucket, PStr k)) <$> keys
    /\ printed tr = (fun k => "Deleting: " +:+ k) <$> keys
    /\ refuses st' = refuses st
    /\ page_extra st' = page_extra st
    /\ (forall o, o ∈ objects st' <->
                  o ∈ objects st /\ o ∉ (fun k => (bucket, k)) <$> keys).
Proof.
  induction keys as [|k keys IH]; intros d st Hne Href.
  - exists [], st. simpl. rewrite Nat.add_0_r. do 5 (split; [done|]).
    intros o. split; [|by intros [? _]].
    intros Hin. split; [done|]. by intros ?%elem_of_nil.
  - simpl delete_contents. rewrite pbind_print.
    assert (Hdel : delete_object bucket (PStr k) st
                   = ([DeleteObject bucket (PStr k)], remove_object bucket k st, inr tt)).
    { unfold delete_object.
      rewrite (proj2 (String.eqb_neq k "") (Hne k (list_elem_of_here _ _))).
      rewrite Href; [done|]. apply list_elem_of_here. }
    rewrite (pbind_ok _ _ _ _ _ _ Hdel).
    destruct (IH (S d) (remove_object bucket k st)) as (tr & st' & -> & Hd & Hp & Hr & Hpe & Hobj).
    { intros k' Hk'. apply Hne. by apply list_elem_of_further. }
    { intros objs k' Hk'. simpl. apply Href. by apply list_elem_of_further. }
    replace (d + length (k :: keys))%nat with (S d + length keys)%nat by (simpl; lia).
    eexists _, st'. unfold prepend. cbn [fst snd].
    split; [reflexivity|]. split; [cbn; f_equal; exact Hd|].
    split; [cbn; f_equal; exact Hp|]. split; [done|]. split; [done|].
    intros o. rewrite Hobj. cbn [objects remove_object].
    rewrite elem_of_difference, elem_of_singleton, fmap_cons, elem_of_cons. tauto.
Qed.

End Pagination.

Section PrefixDeleter.

Context (bucket prefix : string).

Lemma pbind_next_page {B} token (k : page -> prog B) st :
  pbind (next_page bucket prefix token) k st
  = prepend [ListObjectsV2 bucket prefix token]
      (k (list_objects_v2 st bucket prefix token) st).
Proof. by apply pbind_ok. Qed.

(** The outer loop: with enough fuel for the pages, it deletes the whole
    listing, in order, and counts it. *)
Lemma delete_pages_run : forall fuel rest token deleted_count st,
  listing st bucket prefix token = rest ->
  length rest < fuel ->
  (forall objs k, String.prefix prefix k = true -> refuses st objs bucket k = None) ->
  exists tr st',
    delete_pages fuel bucket prefix token deleted_count st
    = (tr, st', inr (deleted_count + length rest)%nat)
    /\ delete_calls tr = (fun k => (bucket, PStr k)) <$> rest
    /\ printed tr = (fun k => "Deleting: " +:+ k) <$> rest
    /\ (forall o, o ∈ objects st' <->
                  o ∈ objects st /\ o ∉ (fun k => (bucket, k)) <$> rest).
Proof.
  induction fuel as [|fuel IH]; intros rest token d st Hrest Hfuel Href; [lia|].
  assert (Hpre : forall k, k ∈ rest -> String.prefix prefix k = true).
  { intros k Hk. rewrite <- Hrest in Hk. by apply listing_spec in Hk as [[_ ?] _]. }
  assert (Hkey : forall k, k ∈ rest -> k <> "").
  { intros k Hk. rewrite <- Hrest in Hk. apply listing_spec in Hk as [[Hin _] _].
    exact (keys_nonempty st _ Hin). }
  simpl delete_pages. rewrite pbind_next_page.
  unfold list_objects_v2. fold (listing st bucket prefix token). rewrite Hrest.
  cbn [Contents NextContinuationToken].
  destruct (decide (length rest <= max_keys st)) as [Hle|Hgt].
  - (* the last page *)
    rewrite (take_ge _ _ Hle).
    replace (max_keys st <? length rest)%nat with false
      by (symmetry; apply Nat.ltb_ge; lia).
    destruct rest as [|k0 rest'].
    + rewrite pbind_ret. eexists _, st. unfold prepend, ret. cbn [fst snd].
      rewrite Nat.add_0_r. split; [reflexivity|]. do 2 (split; [done|]).
      intros o. split; [|by intros [? _]].
      intros Hin. split; [done|]. by intros ?%elem_of_nil.
    + destruct (delete_contents_run bucket (k0 :: rest') d st)
        as (tr & st' & Hrun & Hd & Hp & _ & _ & Hobj).
      { exact Hkey. }
      { intros objs k Hk. apply Href. by apply Hpre. }
      rewrite (pbind_ok _ _ _ _ _ _ Hrun). eexists _, st'.
      unfold prepend, ret. cbn [fst snd]. rewrite app_nil_r.
      split; [reflexivity|]. split; [exact Hd|]. split; [exact Hp|]. exact Hobj.
  - (* a full page, and more to come *)
    apply Nat.nle_gt in Hgt.
    replace (max_keys st <? length rest)%nat with true
      by (symmetry; apply Nat.ltb_lt; lia).
    set (pg := take (max_keys st) rest). set (more := drop (max_keys st) rest).
    assert (Hsplit : rest = pg ++ more) by (symmetry; apply take_drop).
    assert (Hlen : length pg = max_keys st) by (apply length_take_le; lia).
    assert (Hne : pg <> []).
    { intros E. rewrite E in Hlen. unfold max_keys in Hlen. discriminate. }
    destruct (proj2 (last_is_Some pg) Hne) as [last_key Hlast].
    assert (Hc : match pg with [] => None | _ :: _ => Some pg end = Some pg)
      by (by destruct pg).
    rewrite Hc. clear Hc.
    destruct (delete_contents_run bucket pg d st)
      as (tr1 & st1 & Hrun & Hd1 & Hp1 & Hr1 & _ & Hobj1).
    { intros k Hk. apply Hkey. rewrite Hsplit. apply elem_of_app. by left. }
    { intros objs k Hk. apply Href, Hpre. rewrite Hsplit. apply elem_of_app. by left. }
    rewrite (pbind_ok _ _ _ _ _ _ Hrun). rewrite Hlast.
    destruct (IH more (Some last_key) (d + length pg)%nat st1)
      as (tr2 & st2 & Hrun2 & Hd2 & Hp2 & Hobj2).
    { apply (listing_after_page bucket prefix st st1 token pg more); [|done|done].
      by rewrite Hrest. }
    { unfold more. rewrite length_drop. unfold max_keys in *. lia. }
    { intros objs k Hk. rewrite Hr1. by apply Href. }
    rewrite Hrun2. eexists _, st2. unfold prepend. cbn [fst snd].
    replace (d + length rest)%nat with (d + length pg + length more)%nat
      by (rewrite Hsplit, length_app; lia).
    split; [reflexivity|].
    split; [cbn; rewrite delete_calls_app, Hd1, Hd2, Hsplit, fmap_app; done|].
    split; [cbn; rewrite printed_app, Hp1, Hp2, Hsplit, fmap_app; done|].
    intros o. rewrite Hobj2, Hobj1, Hsplit, fmap_app, elem_of_app. tauto.
Qed.

End PrefixDeleter.

(** C8.  On a store that answers the delete calls under the prefix, the
    Prefix Deleter goes through the pages of the listing to the last one,
    deletes exactly the objects of the bucket whose key starts with the
    prefix -- the keys the listing returns, each once, in order -- leaves
    every other object where it is, and reports their number. *)
Theorem prefix_deleter_deletes_the_listing
    fuel w st bucket prefix access_key secret_key endpoint region more_args :
  boto3_client w access_key secret_key endpoint region = Ok tt ->
  (forall objs k, String.prefix prefix k = true -> refuses st objs bucket k = None) ->
  length (keys_under st bucket prefix) < fuel ->
  let argv := bucket :: prefix :: access_key :: secret_key :: endpoint :: region
                :: more_args in
  let r := run (delete_s3_files fuel argv w) st in
  let listed := keys_under st bucket prefix in
  status_of r = inr tt
  /\ delete_calls (trace_of r) = (fun k => (bucket, PStr k)) <$> listed
  /\ NoDup listed
  /\ (forall k, k ∈ listed <-> (bucket, k) ∈ objects st /\ String.prefix prefix k = true)
  /\ (forall o, o ∈ objects (store_of r) <->
                o ∈ objects st /\ ~ (o.1 = bucket /\ String.prefix prefix o.2 = true))
  /\ last (printed (trace_of r)) = Some (deleted_line (length listed) bucket prefix).
Proof.
  intros Hclient Href Hfuel argv r listed. subst argv r. unfold run, delete_s3_files.
  rewrite pbind_emit, Hclient, pbind_lift_ok.
  destruct (delete_pages_run bucket prefix fuel listed None 0 st)
    as (tr & st' & Hrun & Hd & Hp & Hobj); [apply listing_all|done|done|].
  rewrite (pbind_ok _ _ _ _ _ _ Hrun).
  rewrite !status_of_prepend, !trace_of_prepend, !store_of_prepend.
  change (trace_of (print (deleted_line (0 + length listed) bucket prefix) st'))
    with [Print (deleted_line (length listed) bucket prefix)].
  split; [done|].
  split; [rewrite !delete_calls_app, Hd; cbn; by rewrite app_nil_r|].
  split; [apply keys_under_NoDup|]. split; [apply keys_under_spec|]. split.
  - intros [b k]. rewrite Hobj. simpl. split.
    + intros [Hin Hnot]. split; [done|]. intros [-> Hpre]. apply Hnot.
      apply list_elem_of_fmap. exists k. split; [done|]. by apply keys_under_spec.
    + intros [Hin Hnot]. split; [done|].
      intros (k' & [= -> ->] & Hk')%list_elem_of_fmap.
      apply keys_under_spec in Hk' as [_ Hpre]. by apply Hnot.
  - rewrite app_assoc, printed_app. apply last_snoc.
Qed.

(** The example of the specification: keys [p/1], [p/2], [q/1] and
    prefix [p/], with pages of one key. *)
Lemma prefix_deleter_example :
  let r := run (delete_s3_files 3 example_argv (sample_world "")) example_store in
  status_of r = inr tt
  /\ delete_calls (trace_of r) = [("bucket", PStr "p/1"); ("bucket", PStr "p/2")]
  /\ elements (objects (store_of r)) = [("bucket", "q/1")]
  /\ last (printed (trace_of r)) = Some "Deleted 2 objects from bucket/p/".
Proof.
  pose proof (prefix_deleter_deletes_the_listing 3 (sample_world "") example_store
                "bucket" "p/" "AK" "SK" "https://s3.example.org" "us-east-1" []
                eq_refl (fun _ _ _ => eq_refl)) as H.
  assert (Hfuel : length (keys_under example_store "bucket" "p/") < 3)
    by (vm_compute; lia).
  specialize (H Hfuel). cbv zeta in H. destruct H as (Hs & Hd & _ & _ & _ & Hlast).
  cbv zeta. unfold example_argv.
  split; [exact Hs|]. split; [rewrite Hd; vm_compute; reflexivity|].
  split; [vm_compute; reflexivity|]. rewrite Hlast. vm_compute. reflexivity.
Defined.

(* ===================================================================== *)
(** * The properties on the sample data *)
(* ===================================================================== *)

Lemma key_is_prefix_then_id_witness :
  collect_files_to_delete no_str sample_doc "data/" None = Ok sample_targets
  /\ exists items ids l fs file_id,
       sample_doc = PDict items
       /\ (PStr "S2", ids) ∈ items
       /\ py_get ids "siloReads" (PList []) = Ok l
       /\ py_iter l = Ok fs
       /\ file_id ∈ fs
       /\ PStr "data/b2" = s3_key_of no_str "data/" file_id
       /\ (forall fid, file_id = PStr fid -> PStr "data/b2" = PStr ("data/" +:+ fid)).
Proof.
  assert (H : collect_files_to_delete no_str sample_doc "data/" None = Ok sample_targets)
    by (vm_compute; reflexivity).
  split; [exact H|].
  apply (key_is_prefix_then_id no_str sample_doc "data/" None sample_targets
           (PStr "S2") "siloReads" (PStr "data/b2") H).
  unfold sample_targets. do 2 apply list_elem_of_further. apply list_elem_of_here.
Defined.

Lemma declined_confirmation_witness :
  let r := run (main no_str exn_name sample_argv (sample_world "yes")) sample_store in
  delete_calls (trace_of r) = []
  /\ store_of r = sample_store
  /\ status_of r = inl (Exit 0)
  /\ exit_code (status_of r) = Some 0%Z
  /\ input_calls (trace_of r) = ["Type 'DELETE' to confirm: "].
Proof.
  assert (Hc : collect_files_to_delete no_str sample_doc "data/" None = Ok sample_targets)
    by (vm_compute; reflexivity).
  apply (declined_confirmation_deletes_nothing no_str exn_name sample_argv
           (sample_world "yes") sample_store no_options
           "file_ids.json" "bucket" "data/" "AK" "SK" "s3.example.org" "us-east-1" []
           sample_doc sample_targets "yes"
           eq_refl eq_refl eq_refl eq_refl Hc ltac:(discriminate) eq_refl
           ltac:(discriminate)).
Defined.

Lemma dry_run_witness :
  let argv := sample_argv ++ ["--dry-run"] in
  let r := run (main no_str exn_name argv (sample_world "DELETE")) sample_store in
  delete_calls (trace_of r) = []
  /\ input_calls (trace_of r) = []
  /\ store_of r = sample_store
  /\ status_of r = inr tt
  /\ last (printed (trace_of r)) = Some "Would delete 3 files from s3://bucket/".
Proof.
  pose proof (dry_run_changes_nothing no_str exn_name (sample_argv ++ ["--dry-run"])
                (sample_world "DELETE") sample_store sample_argv
                {| dry_run := true; file_type := None |} eq_refl eq_refl) as H.
  cbv zeta in H. destruct H as (Hd & Hi & Hst & H).
  destruct (H "file_ids.json" "bucket" "data/" "AK" "SK" "s3.example.org" "us-east-1" []
              sample_doc sample_targets eq_refl eq_refl eq_refl)
    as (Hs & _ & Hlast); [vm_compute; reflexivity|].
  cbv zeta. do 4 (split; [assumption|]). rewrite Hlast; [|discriminate].
  vm_compute. reflexivity.
Defined.

Lemma every_target_witness :
  let r := run (main no_str exn_name sample_argv (sample_world "DELETE")) sample_store in
  status_of r = inr tt
  /\ delete_calls (trace_of r)
     = [("bucket", PStr "data/a1"); ("bucket", PStr "data/b1"); ("bucket", PStr "data/b2")]
  /\ delete_outcomes "bucket" ((fun t : target => t.2) <$> sample_targets) sample_store
     = [true; false; true]
  /\ exists before,
       printed (trace_of r) = before ++ summary_lines 2 1 3.
Proof.
  pose proof (every_target_is_attempted_once no_str exn_name sample_argv
                (sample_world "DELETE") sample_store no_options
                "file_ids.json" "bucket" "data/" "AK" "SK" "s3.example.org" "us-east-1" []
                sample_doc sample_targets eq_refl eq_refl eq_refl eq_refl) as H.
  assert (Hc : collect_files_to_delete no_str sample_doc "data/" None = Ok sample_targets)
    by (vm_compute; reflexivity).
  specialize (H Hc ltac:(discriminate) eq_refl eq_refl). cbv zeta in H.
  destruct H as (Hs & Hd & _ & _ & Hsum).
  cbv zeta. split; [exact Hs|]. split; [rewrite Hd; reflexivity|].
  split; [vm_compute; reflexivity|]. exact Hsum.
Defined.

(** C6 fails on the code at [--type ""]: the empty value is not one of the
    two tags, yet it passes the validation ([file_type and ...] tests its
    truth, where the filter tests [file_type is None]); the run loads the
    document, finds nothing to delete and ends with exit code 0. *)
Theorem empty_type_is_not_rejected :
  let argv := sample_argv ++ ["--type"; ""] in
  let r := run (main no_str exn_name argv (sample_world "DELETE")) sample_store in
  parse_args_loop argv [] no_options
    = Some (sample_argv, {| dry_run := false; file_type := Some "" |})
  /\ type_rejected (Some "") = false
  /\ status_of r = inr tt
  /\ exit_code (status_of r) = Some 0%Z
  /\ trace_of r
     = [Print "Loading file IDs from: file_ids.json";
        LoadJson "file_ids.json";
        Print "Loaded 2 submissions";
        Print "Found 0 files to delete";
        Print "No files to delete."].
Proof. vm_compute. repeat split; reflexivity. Qed.


(** C5 as stated fails: a field holding JSON that is not an array makes
    the extraction raise. *)
Lemma number_field_raises :
  Json.loads "5" = Ok (PInt 5)
  /\ extract_file_ids Json.loads [record_number_field] = Raise TypeError.
Proof. split; vm_compute; reflexivity. Qed.

(** A field on which the decoder raises what the handler does not name:
    the [ValueError] of an integer of 4301 digits ends the extraction, and
    the record read before it is lost with it. *)
Lemma long_number_field_raises :
  Json.loads long_number = Raise ValueError
  /\ extract_file_ids Json.loads [record_S2; record_long_number; record_S1_new]
     = Raise ValueError.
Proof.
  assert (H : Json.loads long_number = Raise ValueError) by (vm_compute; reflexivity).
  split; [exact H|].
  apply (uncaught_decoder_error_ends_extraction Json.loads [record_S2]
           [(PStr "metadata",
             PDict [(PStr "submissionId", PStr "S3");
                    (PStr "nucleotideAlignment", PStr long_number)])]
           [(PStr "submissionId", PStr "S3");
            (PStr "nucleotideAlignment", PStr long_number)]
           "nucleotideAlignment" long_number ValueError [record_S1_new]
           [(PStr "S2", PDict [(PStr "nucleotideAlignment", PList []);
                               (PStr "siloReads", PList [])])]).
  - vm_compute. reflexivity.
  - reflexivity.
  - reflexivity.
  - by left.
  - reflexivity.
  - discriminate.
  - exact H.
  - reflexivity.
Qed.

Lemma undecodable_field_witness :
  record_entry Json.loads record_S2
  = Ok (Some (PStr "S2", PDict [(PStr "nucleotideAlignment", PList []);
                                (PStr "siloReads", PList [])])).
Proof.
  pose proof (undecodable_field_is_empty Json.loads
                [(PStr "metadata",
                  PDict [(PStr "submissionId", PStr "S2");
                         (PStr "nucleotideAlignment", PStr "not json");
                         (PStr "siloReads", PNone)])]
                [(PStr "submissionId", PStr "S2");
                 (PStr "nucleotideAlignment", PStr "not json");
                 (PStr "siloReads", PNone)]
                (PStr "S2") eq_refl eq_refl eq_refl) as (_ & H & _).
  apply H.
  - right. right. exists "not json", JSONDecodeError.
    split; [reflexivity|]. split; [vm_compute; reflexivity | reflexivity].
  - vm_compute. reflexivity.
Defined.

Lemma last_record_wins_witness :
  exists out,
    extract_file_ids Json.loads [record_S1_old; record_S1_new; record_S2] = Ok out
    /\ dict_lookup (PStr "S1") out
       = Some (PDict [(PStr "nucleotideAlignment", PList [PStr "a2"; PStr "a3"]);
                      (PStr "siloReads", PList [])])
    /\ length (filter (fun e => key_of e.1 = key_of (PStr "S1")) out) = 1.
Proof.
  eexists. split; [vm_compute; reflexivity|].
  apply (last_record_wins Json.loads [record_S1_old] record_S1_new [record_S2]).
  - vm_compute. reflexivity.
  - vm_compute. reflexivity.
  - intros r k' ->%list_elem_of_singleton [= <-] _. discriminate.
Defined.

Lemma output_ids_witness :
  exists d md a_files s_files,
    PDict d ∈ [record_S1_old; record_S1_new]
    /\ default (PDict []) (dict_lookup (PStr "metadata") d) = PDict md
    /\ field_files Json.loads (field_of md "nucleotideAlignment") = Ok a_files
    /\ field_files Json.loads (field_of md "siloReads") = Ok s_files
    /\ let kept files := filter (fun v => py_truthy v = true) (file_id_of <$> files) in
       PDict [(PStr "nucleotideAlignment", PList [PStr "a2"; PStr "a3"]);
              (PStr "siloReads", PList [])]
       = PDict [(PStr "nucleotideAlignment", PList (kept a_files));
                (PStr "siloReads", PList (kept s_files))]
       /\ Forall (fun v => py_truthy v = true) (kept a_files)
       /\ Forall (fun v => py_truthy v = true) (kept s_files)
       /\ (forall f, f ∈ a_files ++ s_files ->
             file_id_of f = PNone \/ file_id_of f = PStr "" ->
             file_id_of f ∉ kept a_files ++ kept s_files).
Proof.
  apply (output_ids_are_nonempty Json.loads [record_S1_old; record_S1_new]
           [(PStr "S1", PDict [(PStr "nucleotideAlignment", PList [PStr "a2"; PStr "a3"]);
                               (PStr "siloReads", PList [])])]).
  - vm_compute. reflexivity.
  - apply list_elem_of_here.
Defined.

(* ===================================================================== *)
(** * Further results on the Selective Deleter *)
(* ===================================================================== *)

(** ** [parse_args] *)

Lemma parse_args_loop_app_le n : forall a b pos args pos' args',
  length a <= n ->
  parse_args_loop a pos args = Some (pos', args') ->
  parse_args_loop (a ++ b) pos args = parse_args_loop b pos' args'.
Proof.
  induction n as [|n IH]; intros a b pos args pos' args' Hn H.
  - destruct a; [|simpl in Hn; lia]. simpl in H. by injection H as <- <-.
  - destruct a as [|x a]; [simpl in H; by injection H as <- <-|].
    simpl in H |- *. simpl in Hn.
    destruct (String.eqb x "--dry-run"); [apply IH; [lia|done]|].
    destruct (String.eqb x "--type"); [|apply IH; [lia|done]].
    destruct a as [|v a]; [discriminate|]. simpl in Hn |- *. apply IH; [lia|done].
Qed.

(** X1.  Reading an argument list in two parts: when the first part is read
    without error, the second is read from where the first ended. *)
Theorem parse_args_loop_app a b pos args pos' args' :
  parse_args_loop a pos args = Some (pos', args') ->
  parse_args_loop (a ++ b) pos args = parse_args_loop b pos' args'.
Proof. apply (parse_args_loop_app_le (length a)). apply Nat.le_refl. Qed.

Lemma parse_args_positional_le n : forall argv pos args pos' args',
  length argv <= n ->
  parse_args_loop argv pos args = Some (pos', args') ->
  exists added, pos' = pos ++ added
                /\ sublist added argv
                /\ Forall (fun a => is_option_token a = false) added.
Proof.
  induction n as [|n IH]; intros argv pos args pos' args' Hn H.
  - destruct argv; [|simpl in Hn; lia]. simpl in H. injection H as <- <-.
    exists []. rewrite app_nil_r. by repeat split.
  - destruct argv as [|x argv].
    { simpl in H. injection H as <- <-. exists []. rewrite app_nil_r. by repeat split. }
    simpl in H, Hn. destruct (String.eqb x "--dry-run") eqn:Ed.
    { apply IH in H as (added & -> & Hs & Hf); [|lia].
      exists added. split; [done|]. split; [by apply sublist_cons|done]. }
    destruct (String.eqb x "--type") eqn:Et.
    { destruct argv as [|v argv]; [discriminate|]. simpl in Hn.
      apply IH in H as (added & -> & Hs & Hf); [|lia].
      exists added. split; [done|]. split; [by do 2 apply sublist_cons|done]. }
    apply IH in H as (added & -> & Hs & Hf); [|lia].
    exists (x :: added). rewrite <- app_assoc. split; [done|].
    split; [by apply sublist_skip|]. constructor; [|done].
    unfold is_option_token. by rewrite Ed, Et.
Qed.

(** X2.  The positional arguments are arguments of the command line, in their
    order, and none of them is [--dry-run] or [--type]; a command line
    without these two words is all positional and sets no option. *)
Theorem parse_args_positional argv positional opts :
  parse_args_loop argv [] no_options = Some (positional, opts) ->
  sublist positional argv
  /\ Forall (fun a => is_option_token a = false) positional
  /\ (Forall (fun a => is_option_token a = false) argv ->
      positional = argv /\ opts = no_options).
Proof.
  intros H.
  destruct (parse_args_positional_le (length argv) argv [] no_options positional opts
              (Nat.le_refl _) H) as (added & -> & Hs & Hf).
  simpl. split; [done|]. split; [done|].
  intros Hall. clear Hs Hf.
  assert (G : forall argv pos args,
             Forall (fun a => is_option_token a = false) argv ->
             parse_args_loop argv pos args = Some (pos ++ argv, args)).
  { clear. induction argv as [|x argv IH]; intros pos args Hf; simpl.
    - by rewrite app_nil_r.
    - inversion Hf as [|? ? Hx Hf']; subst. unfold is_option_token in Hx.
      apply orb_false_iff in Hx as [-> ->]. rewrite IH by done.
      by rewrite <- app_assoc. }
  rewrite (G argv [] no_options Hall) in H. simpl in H. by injection H as <- <-.
Qed.

Lemma parse_args_failure_le n : forall argv pos args,
  length argv <= n ->
  parse_args_loop argv pos args = None -> last argv = Some "--type".
Proof.
  induction n as [|n IH]; intros argv pos args Hn H.
  - destruct argv; [discriminate|simpl in Hn; lia].
  - destruct argv as [|x argv]; [discriminate|]. simpl in H, Hn.
    destruct (String.eqb x "--dry-run").
    { destruct argv as [|y argv]; [discriminate|].
      rewrite last_cons_cons. apply IH in H; [done|simpl in *; lia]. }
    destruct (String.eqb x "--type") eqn:Et.
    { destruct argv as [|v argv]; [by apply String.eqb_eq in Et as ->|].
      destruct argv as [|y argv]; [discriminate|].
      rewrite !last_cons_cons. apply IH in H; [done|simpl in *; lia]. }
    destruct argv as [|y argv]; [discriminate|].
    rewrite last_cons_cons. apply IH in H; [done|simpl in *; lia].
Qed.

Section SelectiveDeleterEdges.

Context (py_str : pyval -> string) (exn_str : pyexn -> string).

(** X3.  The only command lines [parse_args] refuses end in [--type]; the run
    then prints the one error line and exits with code 1, having touched
    nothing. *)
Theorem missing_type_value_exits argv w st :
  parse_args_loop argv [] no_options = None ->
  last argv = Some "--type"
  /\ run (main py_str exn_str argv w) st = ([Print type_error_line], st, inl (Exit 1)).
Proof.
  intros H.
  split; [by apply (parse_args_failure_le (length argv) argv [] no_options (Nat.le_refl _))|].
  unfold run, main, parse_args. rewrite H. by rewrite pbind_assoc, pbind_print.
Qed.

(** X4.  Fewer than seven positional arguments: the usage text and exit code 1,
    and nothing else -- no file read, no prompt, no client, no delete. *)
Theorem too_few_arguments_exits argv w st positional opts :
  parse_args_loop argv [] no_options = Some (positional, opts) ->
  length positional < 7 ->
  run (main py_str exn_str argv w) st = (Print <$> usage_lines, st, inl (Exit 1)).
Proof.
  intros H Hlen. unfold run, main, parse_args. rewrite H, pbind_ret. cbn [fst snd].
  destruct positional as [|f [|b [|p [|a [|s [|e [|rg rest]]]]]]];
    try (rewrite pbind_print_all; reflexivity).
  simpl in Hlen. lia.
Qed.

(** X5.  An empty target list ends the run with its message and exit code 0
    before any prompt, client or delete call, with or without
    [--dry-run]. *)
Theorem nothing_to_delete_returns argv w st opts f b p a s e rg rest file_ids :
  parse_args_loop argv [] no_options
    = Some (f :: b :: p :: a :: s :: e :: rg :: rest, opts) ->
  type_rejected (file_type opts) = false ->
  load_file_ids w f = Ok file_ids ->
  collect_files_to_delete py_str file_ids p (file_type opts) = Ok [] ->
  exists n,
    py_len file_ids = Ok n
    /\ run (main py_str exn_str argv w) st
       = (opening f n 0 ++ [Print "No files to delete."], st, inr tt).
Proof.
  intros Hparse Htype Hload Hcollect.
  destruct (collect_needs_dict _ _ _ _ _ Hcollect) as [items ->].
  exists (length items). split; [done|]. unfold run.
  by rewrite (main_opening _ _ _ _ _ _ _ _ _ _ _ _ _ _ _ _ Hparse Htype Hload Hcollect).
Qed.


End SelectiveDeleterEdges.


(** ** What [main] never does *)

Lemma harmless_quiet {A} (p : prog A) : quiet p -> harmless p.
Proof. intros H st. destruct (H st) as (? & ? & _). done. Qed.

Lemma harmless_bind {A B} (m : prog A) (k : A -> prog B) :
  harmless m -> (forall a, harmless (k a)) -> harmless (pbind m k).
Proof.
  intros Hm Hk st. unfold pbind. specialize (Hm st).
  unfold store_of, trace_of in *.
  destruct (m st) as [[tr st1] [s|a]]; [done|].
  destruct Hm as (Hst & Hd). simpl in Hst, Hd. subst st1.
  specialize (Hk a st). destruct (k a st) as [[tr' st2] r].
  destruct Hk as (Hst' & Hd'). unfold store_of, trace_of in *. simpl in *.
  by rewrite delete_calls_app, Hd, Hd'.
Qed.

Lemma harmless_emit e : is_delete e = false -> harmless (emit e).
Proof. intros H st. by destruct e. Qed.

Lemma confined_bind {A B} bucket (m : prog A) (k : A -> prog B) :
  confined bucket m -> (forall a, confined bucket (k a)) -> confined bucket (pbind m k).
Proof.
  intros Hm Hk st. unfold pbind. specialize (Hm st).
  unfold store_of, trace_of in *.
  destruct (m st) as [[tr st1] [s|a]]; [done|].
  destruct Hm as (Hsub & Hkeep & Hcalls). simpl in Hsub, Hkeep, Hcalls.
  specialize (Hk a st1). destruct (k a st1) as [[tr' st2] r].
  destruct Hk as (Hsub' & Hkeep' & Hcalls'). unfold store_of, trace_of in *. simpl in *.
  split; [set_solver|]. split; [by auto|].
  rewrite delete_calls_app. by apply Forall_app.
Qed.

Lemma confined_harmless {A} bucket (p : prog A) : harmless p -> confined bucket p.
Proof.
  intros H st. destruct (H st) as (Hst & Hd). rewrite Hst, Hd.
  split; [done|]. split; [done|]. constructor.
Qed.

Lemma confined_delete_object bucket key : confined bucket (delete_object bucket key).
Proof.
  intros st. unfold delete_object, store_of, trace_of.
  destruct key; simpl; try (split; [done|]; split; [done|]; by repeat constructor).
  destruct (String.eqb s ""); simpl;
    [split; [done|]; split; [done|]; by repeat constructor|].
  destruct (refuses st (objects st) bucket s); simpl.
  - split; [done|]. split; [done|]. by repeat constructor.
  - split; [by intros o [? _]%elem_of_difference|]. split; [|by repeat constructor].
    intros [b k] Hin Hne. apply elem_of_difference. split; [done|].
    intros E%elem_of_singleton. injection E as E _. by apply Hne.
Qed.

Lemma confined_try {A} bucket (p : prog A) : confined bucket p -> confined bucket (try_ p).
Proof.
  intros H st. specialize (H st). unfold try_, store_of, trace_of in *.
  destruct (p st) as [[tr st'] [[c|e|]|a]]; done.
Qed.

Section SelectiveDeleterSafety.

Context (py_str : pyval -> string) (exn_str : pyexn -> string).

Lemma confined_delete_files bucket files : forall d e,
  confined bucket (delete_files py_str exn_str bucket files d e).
Proof.
  induction files as [|[[sid ftype] key] files IH]; intros d e.
  - apply confined_harmless, harmless_quiet, quiet_ret.
  - simpl. apply confined_bind.
    + apply confined_try, confined_bind; [apply confined_delete_object|].
      intros _. apply confined_harmless, harmless_quiet, quiet_print.
    + intros [?|?]; [apply IH|].
      apply confined_bind; [|intros _; apply IH].
      apply confined_harmless, harmless_quiet, quiet_print.
Qed.

Lemma harmless_confirm w b a s e rg files :
  stdin w <> Ok "DELETE" ->
  harmless (confirm_and_delete py_str exn_str w b a s e rg files).
Proof.
  intros Hin st. unfold confirm_and_delete. rewrite pbind_print, pbind_emit.
  destruct (stdin w) as [typed|err].
  - rewrite pbind_lift_ok.
    destruct (String.eqb typed "DELETE") eqn:E.
    { apply String.eqb_eq in E. by subst. }
    change (negb false) with true. cbv iota. by rewrite pbind_print.
  - by rewrite pbind_lift_raise.
Qed.

Lemma harmless_main_body w opts f b p a s e rg :
  stdin w <> Ok "DELETE" ->
  harmless (main_body py_str exn_str w opts f b p a s e rg).
Proof.
  intros Hin. unfold main_body. cbv zeta.
  destruct (type_rejected (file_type opts)).
  { apply harmless_quiet, quiet_bind; [apply quiet_print | intros; apply quiet_exit]. }
  apply harmless_bind; [apply harmless_quiet, quiet_print | intros _].
  apply harmless_bind; [apply harmless_quiet, quiet_load | intros _].
  apply harmless_bind; [apply harmless_quiet, quiet_lift | intros file_ids].
  apply harmless_bind; [apply harmless_quiet, quiet_lift | intros n].
  apply harmless_bind; [apply harmless_quiet, quiet_print | intros _].
  apply harmless_bind; [apply harmless_quiet, quiet_lift | intros files].
  apply harmless_bind; [apply harmless_quiet, quiet_print | intros _].
  destruct files; [apply harmless_quiet, quiet_print|].
  apply harmless_bind; [apply harmless_quiet, quiet_show_preview | intros _].
  destruct (dry_run opts); [|by apply harmless_confirm].
  apply harmless_quiet, quiet_bind; [apply quiet_print | intros _; apply quiet_print].
Qed.

(** X7.  Whatever the command line, the document and the store: unless the
    line read at the prompt is exactly [DELETE], the run makes no delete
    call and leaves the store as it was. *)
Theorem no_delete_without_confirmation argv w st :
  stdin w <> Ok "DELETE" ->
  let r := run (main py_str exn_str argv w) st in
  delete_calls (trace_of r) = [] /\ store_of r = st.
Proof.
  intros Hin r. subst r. unfold run.
  assert (H : harmless (main py_str exn_str argv w)).
  { intros st'. unfold main, parse_args.
    destruct (parse_args_loop argv [] no_options) as [[positional opts]|].
    - rewrite pbind_ret. cbn [fst snd].
      destruct positional as [|f [|b [|p [|a [|s [|e [|rg rest]]]]]]];
        try apply (harmless_quiet _ quiet_usage st').
      by apply harmless_main_body.
    - by rewrite pbind_assoc, pbind_print. }
  destruct (H st) as [? ?]. done.
Qed.

Lemma confined_main_body w opts f b p a s e rg :
  confined b (main_body py_str exn_str w opts f b p a s e rg).
Proof.
  unfold main_body. cbv zeta.
  destruct (type_rejected (file_type opts)).
  { apply confined_harmless, harmless_quiet, quiet_bind;
      [apply quiet_print | intros; apply quiet_exit]. }
  apply confined_bind; [apply confined_harmless, harmless_quiet, quiet_print | intros _].
  apply confined_bind; [apply confined_harmless, harmless_quiet, quiet_load | intros _].
  apply confined_bind; [apply confined_harmless, harmless_quiet, quiet_lift | intros file_ids].
  apply confined_bind; [apply confined_harmless, harmless_quiet, quiet_lift | intros n].
  apply confined_bind; [apply confined_harmless, harmless_quiet, quiet_print | intros _].
  apply confined_bind; [apply confined_harmless, harmless_quiet, quiet_lift | intros files].
  apply confined_bind; [apply confined_harmless, harmless_quiet, quiet_print | intros _].
  destruct files; [apply confined_harmless, harmless_quiet, quiet_print|].
  apply confined_bind;
    [apply confined_harmless, harmless_quiet, quiet_show_preview | intros _].
  destruct (dry_run opts).
  { apply confined_harmless, harmless_quiet, quiet_bind;
      [apply quiet_print | intros _; apply quiet_print]. }
  unfold confirm_and_delete.
  apply confined_bind; [apply confined_harmless, harmless_quiet, quiet_print | intros _].
  apply confined_bind; [by apply confined_harmless, harmless_emit | intros _].
  apply confined_bind; [apply confined_harmless, harmless_quiet, quiet_lift | intros typed].
  destruct (negb (String.eqb typed "DELETE")).
  { apply confined_harmless, harmless_quiet, quiet_bind;
      [apply quiet_print | intros; apply quiet_exit]. }
  apply confined_bind; [by apply confined_harmless, harmless_emit | intros _].
  apply confined_bind; [apply confined_harmless, harmless_quiet, quiet_lift | intros _].
  apply confined_bind; [apply confined_delete_files | intros counts].
  apply confined_harmless, harmless_quiet, quiet_print_all.
Qed.

(** X8.  On every run the store only loses objects, only from the bucket named
    on the command line, and every delete call names that bucket. *)
Theorem deletes_stay_in_the_bucket argv w st :
  let r := run (main py_str exn_str argv w) st in
  objects (store_of r) ⊆ objects st
  /\ (forall positional opts bucket o,
        parse_args_loop argv [] no_options = Some (positional, opts) ->
        positional !! 1 = Some bucket ->
        (o ∈ objects st -> o.1 <> bucket -> o ∈ objects (store_of r))
        /\ Forall (fun c => c.1 = bucket) (delete_calls (trace_of r))).
Proof.
  intros r. subst r. unfold run.
  assert (H : forall bucket,
             (forall positional opts,
                parse_args_loop argv [] no_options = Some (positional, opts) ->
                positional !! 1 = Some bucket) ->
             confined bucket (main py_str exn_str argv w)).
  { intros bucket Hb st'. unfold main, parse_args.
    destruct (parse_args_loop argv [] no_options) as [[positional opts]|] eqn:Hp.
    - rewrite pbind_ret. cbn [fst snd]. specialize (Hb _ _ eq_refl).
      destruct positional as [|f [|b [|p [|a [|s [|e [|rg rest]]]]]]];
        try apply (confined_harmless bucket _ (harmless_quiet _ quiet_usage) st').
      injection Hb as ->. apply confined_main_body.
    - rewrite pbind_assoc, pbind_print. unfold prepend, store_of, trace_of. simpl.
      split; [done|]. split; [done|]. constructor. }
  split.
  - destruct (parse_args_loop argv [] no_options) as [[positional opts]|] eqn:Hp.
    + destruct (positional !! 1) as [bucket|] eqn:Hb.
      * assert (Hyp : forall positional0 opts0,
                  Some (positional, opts) = Some (positional0, opts0) ->
                  positional0 !! 1 = Some bucket) by (by intros ? ? [= <- <-]).
        by destruct (H bucket Hyp st) as (Hsub & _).
      * assert (Hq : harmless (main py_str exn_str argv w)).
        { intros st'. unfold main, parse_args. rewrite Hp, pbind_ret. cbn [fst snd].
          destruct positional as [|f [|b rest]]; try discriminate;
            apply (harmless_quiet _ quiet_usage st'). }
        destruct (Hq st) as [-> _]. done.
    + assert (Hyp : forall positional0 opts0,
                @None (list string * options) = Some (positional0, opts0) ->
                positional0 !! 1 = Some "") by (by intros ? ? [=]).
      by destruct (H "" Hyp st) as (Hsub & _).
  - intros positional opts bucket o Hp Hb.
    assert (Hyp : forall positional0 opts0,
              parse_args_loop argv [] no_options = Some (positional0, opts0) ->
              positional0 !! 1 = Some bucket).
    { intros ? ? E. rewrite Hp in E. by injection E as <- <-. }
    destruct (H bucket Hyp st) as (_ & Hkeep & Hcalls).
    split; [apply Hkeep | exact Hcalls].
Qed.

End SelectiveDeleterSafety.


(** ** The endpoint, the preview and the deletion loop *)

Lemma prefix_app (p s : string) : String.prefix p (p +:+ s) = true.
Proof.
  induction p as [|c p IH]; simpl; [by destruct s|].
  destruct (ascii_dec c c); [exact IH|done].
Qed.

(** X9.  The endpoint handed to the client always carries a scheme: one that
    has [http://] or [https://] is passed as it is, any other gets
    [https://] in front; normalizing twice changes nothing more. *)
Theorem normalize_endpoint_scheme endpoint :
  (String.prefix "http://" (normalize_endpoint endpoint) = true
   \/ String.prefix "https://" (normalize_endpoint endpoint) = true)
  /\ (String.prefix "http://" endpoint = true \/ String.prefix "https://" endpoint = true ->
      normalize_endpoint endpoint = endpoint)
  /\ (String.prefix "http://" endpoint = false ->
      String.prefix "https://" endpoint = false ->
      normalize_endpoint endpoint = "https://" +:+ endpoint)
  /\ normalize_endpoint (normalize_endpoint endpoint) = normalize_endpoint endpoint.
Proof.
  assert (Hscheme : String.prefix "http://" (normalize_endpoint endpoint) = true
                    \/ String.prefix "https://" (normalize_endpoint endpoint) = true).
  { unfold normalize_endpoint.
    destruct (String.prefix "http://" endpoint) eqn:E1; [by left|].
    destruct (String.prefix "https://" endpoint) eqn:E2; [by right|].
    right. apply (prefix_app "https://"). }
  assert (Hkeep : forall e, String.prefix "http://" e = true \/ String.prefix "https://" e = true ->
                            normalize_endpoint e = e).
  { intros e [H|H]; unfold normalize_endpoint; rewrite H; [done|].
    by destruct (String.prefix "http://" e). }
  split; [done|]. split; [apply Hkeep|]. split; [|by apply Hkeep].
  intros E1 E2. unfold normalize_endpoint. by rewrite E1, E2.
Qed.

Section SelectiveDeleterOutput.

Context (py_str : pyval -> string) (exn_str : pyexn -> string).

(** X10.  The preview names at most ten targets: up to ten targets it lists
    them all between its two rules; beyond ten it lists the first ten and
    one more line telling how many are left; in all, never more than
    fourteen lines. *)
Theorem preview_is_capped files st :
  let r := show_preview py_str files st in
  let lines := printed (trace_of r) in
  status_of r = inr tt
  /\ length lines <= 14
  /\ (length files <= 10 ->
      lines = [nl +:+ "Files to delete:"; dashes]
              ++ map (preview_line py_str) files ++ [dashes])
  /\ (10 < length files ->
      lines = [nl +:+ "Files to delete:"; dashes]
              ++ map (preview_line py_str) (take 10 files)
              ++ ["  ... and " +:+ str_nat (length files - 10) +:+ " more files"; dashes]).
Proof.
  intros r lines. subst r lines. rewrite show_preview_run.
  unfold status_of, trace_of. cbn [fst snd]. rewrite printed_prints.
  unfold preview_lines. split; [done|]. split; [|split].
  - rewrite !length_app, length_map, length_take.
    pose proof (Nat.le_min_l 10 (length files)) as Hmin.
    destruct (10 <? length files)%nat; cbn [length]; lia.
  - intros Hle. rewrite take_ge by done.
    replace (10 <? length files)%nat with false by (symmetry; apply Nat.ltb_ge; lia).
    done.
  - intros Hlt.
    replace (10 <? length files)%nat with true by (symmetry; by apply Nat.ltb_lt).
    done.
Qed.

Lemma delete_files_objects bucket files : forall deleted_count error_count st,
  let keys := (fun t : target => t.2) <$> files in
  let r := delete_files py_str exn_str bucket files deleted_count error_count st in
  forall o,
    o ∈ objects (store_of r)
    <-> o ∈ objects st
        /\ o ∉ (fun k => (bucket, k)) <$> deleted_keys keys (delete_outcomes bucket keys st).
Proof.
  induction files as [|[[sid ftype] key] files IH]; intros d e st keys r o; subst keys r.
  - simpl. unfold store_of. simpl. split; [|by intros [? _]].
    intros H. split; [done|]. by intros ?%elem_of_nil.
  - simpl delete_files. simpl fmap. simpl delete_outcomes.
    destruct (delete_object_cases bucket key st) as [(st1 & E)|(err & E)].
    + assert (Etry : try_ (delete_object bucket key;;
                           print ("Deleted: " +:+ py_format py_str key)) st
                     = ([DeleteObject bucket key;
                         Print ("Deleted: " +:+ py_format py_str key)], st1, inr (Ok tt)))
        by (unfold try_, pbind; by rewrite E).
      rewrite (pbind_ok _ _ _ _ _ _ Etry), store_of_prepend, E.
      rewrite (IH (S d) e st1 o).
      unfold delete_object in E. destruct key as [| | | |k| |]; try discriminate.
      destruct (String.eqb k ""); [discriminate|].
      destruct (refuses st (objects st) bucket k); [discriminate|].
      injection E as <-. cbn [deleted_keys objects remove_object].
      rewrite fmap_cons, elem_of_cons, elem_of_difference, elem_of_singleton. tauto.
    + assert (Etry : try_ (delete_object bucket key;;
                           print ("Deleted: " +:+ py_format py_str key)) st
                     = ([DeleteObject bucket key], st, inr (Raise err)))
        by (unfold try_, pbind; by rewrite E).
      rewrite (pbind_ok _ _ _ _ _ _ Etry), pbind_print, !store_of_prepend, E.
      rewrite (IH d (S e) st o).
      by destruct key.
Qed.

Lemma count_replicate_true n :
  length (filter (fun o => o = true) (replicate n true)) = n
  /\ length (filter (fun o => o = false) (replicate n true)) = 0.
Proof.
  induction n as [|n [IH1 IH2]]; [done|]. cbn [replicate]. rewrite !filter_cons.
  destruct (decide (true = true)); [|done]. destruct (decide (true = false)); [done|].
  simpl. by rewrite IH1, IH2.
Qed.

Lemma delete_outcomes_unrefused bucket (ks : list string) : forall st,
  Forall (fun k => k <> "") ks ->
  (forall objs k, refuses st objs bucket k = None) ->
  delete_outcomes bucket (PStr <$> ks) st = replicate (length ks) true
  /\ deleted_keys (PStr <$> ks) (delete_outcomes bucket (PStr <$> ks) st) = ks.
Proof.
  induction ks as [|k ks IH]; intros st Hne Href; [done|].
  apply Forall_cons in Hne as [Hk Hne].
  simpl. rewrite (proj2 (String.eqb_neq k "") Hk), Href. simpl.
  destruct (IH (remove_object bucket k st)) as [E1 E2]; [exact Hne|exact Href|].
  split; f_equal; [exact E1 | exact E2].
Qed.

(** An empty key never reaches the store: the client rejects it, and the
    loop prints the error, counts it and goes on with the store as it
    was. *)
Lemma empty_key_is_an_error bucket sid ftype files deleted_count error_count st :
  delete_files py_str exn_str bucket ((sid, ftype, PStr "") :: files)
    deleted_count error_count st
  = prepend [DeleteObject bucket (PStr "");
             Print ("Error deleting : " +:+ exn_str ParamValidationError)]
      (delete_files py_str exn_str bucket files deleted_count (S error_count) st).
Proof.
  simpl delete_files.
  assert (Etry : try_ (delete_object bucket (PStr "");;
                       print ("Deleted: " +:+ py_format py_str (PStr ""))) st
                 = ([DeleteObject bucket (PStr "")], st, inr (Raise ParamValidationError)))
    by done.
  by rewrite (pbind_ok _ _ _ _ _ _ Etry), pbind_print.
Qed.

(** X11.  The deletion loop removes an object exactly when a call on its key
    succeeded: a call that raises leaves the store as it found it, and the
    objects the batch does not name are never touched. *)
Theorem delete_files_effect bucket files deleted_count error_count st o :
  let keys := (fun t : target => t.2) <$> files in
  let r := delete_files py_str exn_str bucket files deleted_count error_count st in
  o ∈ objects (store_of r)
  <-> o ∈ objects st
      /\ o ∉ (fun k => (bucket, k)) <$> deleted_keys keys (delete_outcomes bucket keys st).
Proof. apply delete_files_objects. Qed.

(** X12.  On a store that refuses nothing, a batch of keys that are
    non-empty strings ends with no error, every target counted as deleted,
    and none of its keys left in the bucket.  (An empty key, as an empty
    identifier under an empty prefix gives, never reaches the store: the
    client rejects it and the loop counts an error.) *)
Theorem delete_files_all_succeed bucket files (ks : list string) st :
  (fun t : target => t.2) <$> files = PStr <$> ks ->
  Forall (fun k => k <> "") ks ->
  (forall objs k, refuses st objs bucket k = None) ->
  let r := delete_files py_str exn_str bucket files 0 0 st in
  status_of r = inr (length files, 0)
  /\ (forall o, o ∈ objects (store_of r)
                <-> o ∈ objects st /\ o ∉ (fun k => (bucket, k)) <$> ks).
Proof.
  intros Hkeys Hne Href r. subst r.
  destruct (delete_outcomes_unrefused bucket ks st Hne Href) as [Hout Hdel].
  split.
  - destruct (delete_files_run py_str exn_str bucket files 0 0 st)
      as (tr & st' & -> & _ & _ & _).
    rewrite Hkeys, Hout. unfold status_of. cbn [snd].
    assert (Hlen : length files = length ks).
    { rewrite <- (length_fmap (fun t : target => t.2) files), Hkeys. apply length_fmap. }
    rewrite Hlen. destruct (count_replicate_true (length ks)) as [-> ->]. done.
  - intros o. rewrite (delete_files_objects bucket files 0 0 st o).
    by rewrite Hkeys, Hdel.
Qed.

End SelectiveDeleterOutput.


(** ** The target list *)

Section TargetList.

Context (py_str : pyval -> string).

Lemma collect_category_form sid ids prefix category ts :
  collect_category py_str sid ids prefix category = Ok ts ->
  Forall (fun t : target => t.1.2 = category) ts.
Proof.
  unfold collect_category. intros H. bind_inv H. bind_inv H. injection H as <-.
  apply Forall_forall. by intros t (fid & -> & _)%list_elem_of_fmap.
Qed.

Lemma filter_all (c : string) (ts : list target) :
  Forall (fun t : target => t.1.2 = c) ts -> filter (fun t : target => t.1.2 = c) ts = ts.
Proof.
  induction 1 as [|t ts Ht _ IH]; [done|]. by rewrite filter_cons_True, IH.
Qed.

Lemma filter_none (c c' : string) (ts : list target) :
  c <> c' ->
  Forall (fun t : target => t.1.2 = c) ts -> filter (fun t : target => t.1.2 = c') ts = [].
Proof.
  intros Hne. induction 1 as [|t ts Ht _ IH]; [done|].
  rewrite filter_cons_False; [done|]. congruence.
Qed.

(** X13.  Giving [--type] one of the two tags keeps exactly the targets of that
    category, in the order they have in the unfiltered list; the two
    filtered lists together have as many targets as the unfiltered one. *)
Theorem type_filter_selects items prefix files :
  collect_files_to_delete py_str (PDict items) prefix None = Ok files ->
  collect_files_to_delete py_str (PDict items) prefix (Some "nucleotideAlignment")
    = Ok (filter (fun t : target => t.1.2 = "nucleotideAlignment") files)
  /\ collect_files_to_delete py_str (PDict items) prefix (Some "siloReads")
     = Ok (filter (fun t : target => t.1.2 = "siloReads") files)
  /\ (length (filter (fun t : target => t.1.2 = "nucleotideAlignment") files)
      + length (filter (fun t : target => t.1.2 = "siloReads") files))%nat
     = length files.
Proof.
  unfold collect_files_to_delete. revert files.
  induction items as [|[sid ids] items IH]; intros files H; simpl in H.
  - injection H as <-. done.
  - bind_inv H. bind_inv H. injection H as <-.
    destruct (IH _ Hx0) as (IHa & IHs & IHlen).
    simpl in Hx. bind_inv Hx. bind_inv Hx. injection Hx as <-.
    pose proof (collect_category_form _ _ _ _ _ Hx1) as Fa.
    pose proof (collect_category_form _ _ _ _ _ Hx2) as Fs.
    rewrite !filter_app.
    rewrite (filter_all _ _ Fa), (filter_all _ _ Fs).
    rewrite (filter_none "siloReads" "nucleotideAlignment" _ ltac:(discriminate) Fs).
    rewrite (filter_none "nucleotideAlignment" "siloReads" _ ltac:(discriminate) Fa).
    split; [|split].
    + simpl. rewrite Hx1. simpl. rewrite IHa. simpl. by rewrite !app_nil_r.
    + simpl. rewrite Hx2. simpl. rewrite IHs. simpl. done.
    + rewrite !length_app in *. simpl. lia.
Qed.

(** X14.  Any other [--type] value selects nothing: the target list is empty
    whatever the document holds (its entries are not even read).  A
    document that is not a JSON object raises [AttributeError]. *)
Theorem other_type_selects_nothing items prefix t :
  t <> "nucleotideAlignment" -> t <> "siloReads" ->
  collect_files_to_delete py_str (PDict items) prefix (Some t) = Ok []
  /\ (forall l, collect_files_to_delete py_str (PList l) prefix (Some t)
                = Raise AttributeError).
Proof.
  intros Ha Hs. split; [|done]. unfold collect_files_to_delete.
  apply String.eqb_neq in Ha, Hs.
  induction items as [|[sid ids] items IH]; [done|].
  simpl. rewrite Ha, Hs. simpl. by rewrite IH.
Qed.

End TargetList.

(** ** From the Fetcher to the Selective Deleter *)

Section Pipeline.

Context (json_loads : string -> except pyval).

(** Every value of the mapping [extract_file_ids] returns is a dict with
    the two category keys, each holding a list. *)
Lemma extract_values_shape records out :
  extract_file_ids json_loads records = Ok out -> Forall two_lists out.*2.
Proof.
  intros H. apply extract_loop_entries in H as (es & Hes & _ & ->).
  apply Forall_forall. intros entry He.
  apply store_all_snd in He as [He|He]; [by apply elem_of_nil in He|].
  apply list_elem_of_fmap in He as ([k v] & -> & He).
  destruct (stored_entries_from _ _ _ _ Hes He) as (r & _ & Hre).
  apply record_entry_Some in Hre as (d & md & a_ids & s_ids & _ & _ & _ & _ & Ha & Hs & ->).
  unfold field_ids in Ha, Hs. bind_inv Ha. bind_inv Hs.
  apply file_ids_of_Ok in Ha as (? & _ & ->). apply file_ids_of_Ok in Hs as (? & _ & ->).
  by eexists _, _.
Qed.

Lemma count_files_total category (out : list (pyval * pyval)) :
  category = "nucleotideAlignment" \/ category = "siloReads" ->
  Forall two_lists out.*2 ->
  count_files category out.*2 = ([], inr (total_ids category out)).
Proof.
  intros Hc. induction out as [|[k v] out IH]; intros H; [done|].
  rewrite fmap_cons in H. apply Forall_cons in H as [(a & s & Hv) H].
  simpl in Hv. subst v. rewrite fmap_cons. cbn [snd count_files total_ids foldr].
  rewrite (IH H). by destruct Hc as [-> | ->].
Qed.

(** X15.  The two sums [main] of the Fetcher prints never raise on the mapping
    [extract_file_ids] returns: every value has both category lists, and
    each sum is the number of identifiers kept in that category. *)
Theorem fetcher_counts_never_raise records out :
  extract_file_ids json_loads records = Ok out ->
  count_files "nucleotideAlignment" out.*2
    = ([], inr (total_ids "nucleotideAlignment" out))
  /\ count_files "siloReads" out.*2 = ([], inr (total_ids "siloReads" out)).
Proof.
  intros H. apply extract_values_shape in H.
  split; apply count_files_total; auto.
Qed.

(** X16.  The Selective Deleter never raises on the mapping the Fetcher
    extracts, and without a type filter it finds one target for each
    identifier the Fetcher counted. *)
Theorem deleter_accepts_fetcher_output py_str records out prefix :
  extract_file_ids json_loads records = Ok out ->
  exists files,
    collect_files_to_delete py_str (PDict out) prefix None = Ok files
    /\ length files
       = (total_ids "nucleotideAlignment" out + total_ids "siloReads" out)%nat.
Proof.
  intros H. apply extract_values_shape in H. unfold collect_files_to_delete.
  induction out as [|[k v] out IH]; [by exists []|].
  rewrite fmap_cons in H. apply Forall_cons in H as [(a & s & Hv) H].
  simpl in Hv. subst v. destruct (IH H) as (files & Hf & Hlen).
  eexists. split.
  - simpl. rewrite Hf. simpl. reflexivity.
  - rewrite !length_app, !length_map, Hlen.
    change (total_ids "nucleotideAlignment"
              ((k, PDict [(PStr "nucleotideAlignment", PList a);
                          (PStr "siloReads", PList s)]) :: out))
      with (length a + total_ids "nucleotideAlignment" out)%nat.
    change (total_ids "siloReads"
              ((k, PDict [(PStr "nucleotideAlignment", PList a);
                          (PStr "siloReads", PList s)]) :: out))
      with (length s + total_ids "siloReads" out)%nat.
    lia.
Qed.

Lemma dict_store_fst_eq k v d :
  (dict_store k v d).*1
  = if bool_decide (key_of k ∈ key_of <$> d.*1) then d.*1 else d.*1 ++ [k].
Proof.
  induction d as [|[k0 v0] d IH]; [done|].
  change (dict_store k v ((k0, v0) :: d)) with
    (if py_key_eqb k0 k then (k0, v) :: d else (k0, v0) :: dict_store k v d).
  rewrite !fmap_cons. cbn [fst].
  destruct (py_key_eqb k0 k) eqn:E.
  - apply py_key_eqb_true in E. rewrite fmap_cons. cbn [fst].
    rewrite bool_decide_eq_true_2; [done|]. rewrite E. apply list_elem_of_here.
  - apply py_key_eqb_false in E. rewrite fmap_cons, IH. cbn [fst].
    destruct (bool_decide (key_of k ∈ key_of <$> d.*1)) eqn:Ed.
    + apply bool_decide_eq_true in Ed.
      rewrite bool_decide_eq_true_2; [done|]. by apply list_elem_of_further.
    + apply bool_decide_eq_false in Ed.
      rewrite bool_decide_eq_false_2; [done|].
      intros [?|?]%elem_of_cons; [congruence|done].
Qed.

Lemma store_all_fst_eq es : forall d,
  (store_all d es).*1
  = foldl (fun seen k =>
             if bool_decide (key_of k ∈ key_of <$> seen) then seen else seen ++ [k])
          d.*1 es.*1.
Proof.
  induction es as [|[k v] es IH]; intros d; [done|].
  simpl. rewrite IH, dict_store_fst_eq. done.
Qed.

(** X17.  The keys of the mapping come in the order in which the submission ids
    first occur in the input: a repeated id keeps the place of its first
    line (and, by the overwrite, the lists of its last). *)
Theorem output_keys_in_first_occurrence_order records out :
  extract_file_ids json_loads records = Ok out ->
  out.*1 = first_occurrences (submission_ids records).
Proof.
  intros H. apply extract_loop_entries in H as (es & Hes & _ & ->).
  rewrite store_all_fst_eq. unfold first_occurrences.
  by rewrite (stored_entries_ids _ _ _ Hes).
Qed.

End Pipeline.


(* ===================================================================== *)
(** * Results on the download and on [main] of the Fetcher *)
(* ===================================================================== *)

Section Download.

Context (json_loads : string -> except pyval)
        (decode : string -> except string)
        (strip : string -> string).

Lemma read_records_app l1 : forall l2 r1,
  read_records json_loads decode strip l1 = Ok r1 ->
  read_records json_loads decode strip (l1 ++ l2) = (r2 <-! read_records json_loads decode strip l2; Ok (r1 ++ r2)).
Proof.
  induction l1 as [|item l1 IH]; intros l2 r1 H; simpl in H.
  - injection H as <-. simpl. by destruct (read_records json_loads decode strip l2).
  - simpl. destruct item as [raw|e]; [|discriminate]. simpl in *.
    destruct (decode raw) as [text|e]; [|discriminate]. simpl in *.
    destruct (String.eqb (strip text) ""); [by apply IH|].
    destruct (json_loads (strip text)) as [record|]; [|discriminate]. simpl in *.
    bind_inv H. injection H as <-. rewrite (IH l2 _ Hx).
    by destruct (read_records json_loads decode strip l2).
Qed.

(** X18.  A blank line -- one that is empty once decoded and stripped -- changes
    nothing, wherever it stands in the response. *)
Theorem blank_lines_are_skipped l1 raw text l2 :
  decode raw = Ok text -> strip text = "" ->
  read_records json_loads decode strip (l1 ++ Ok raw :: l2) = read_records json_loads decode strip (l1 ++ l2).
Proof.
  intros Hd Hs. induction l1 as [|item l1 IH]; simpl.
  - rewrite Hd. simpl. by rewrite Hs.
  - destruct item as [raw'|e]; [|done]. simpl.
    destruct (decode raw') as [text'|e]; [|done]. simpl.
    destruct (String.eqb (strip text') ""); [done|].
    destruct (json_loads (strip text')); [|done]. by rewrite IH.
Qed.

(** X19.  The records come one per non-blank line, in the order of the lines;
    a read that fails, a line that is not UTF-8, or a line on which the
    decoder raises (whatever it raises) ends the download on that
    exception, and the records read before it are lost with it. *)
Theorem bad_line_aborts_the_download l1 r1 l2 :
  read_records json_loads decode strip l1 = Ok r1 ->
  (forall r2, read_records json_loads decode strip l2 = Ok r2 -> read_records json_loads decode strip (l1 ++ l2) = Ok (r1 ++ r2))
  /\ (forall e, read_records json_loads decode strip (l1 ++ Raise e :: l2) = Raise e)
  /\ (forall raw e, decode raw = Raise e -> read_records json_loads decode strip (l1 ++ Ok raw :: l2) = Raise e)
  /\ (forall raw text e,
        decode raw = Ok text -> strip text <> "" -> json_loads (strip text) = Raise e ->
        read_records json_loads decode strip (l1 ++ Ok raw :: l2) = Raise e)
  /\ (forall raw text record,
        decode raw = Ok text -> strip text <> "" ->
        json_loads (strip text) = Ok record ->
        read_records json_loads decode strip (l1 ++ [Ok raw]) = Ok (r1 ++ [record])).
Proof.
  intros H. split; [|split; [|split; [|split]]].
  - intros r2 H2. by rewrite (read_records_app _ _ _ H), H2.
  - intros e. by rewrite (read_records_app _ _ _ H).
  - intros raw e Hd. rewrite (read_records_app _ _ _ H). simpl. by rewrite Hd.
  - intros raw text e Hd Hs Hj. rewrite (read_records_app _ _ _ H). simpl.
    apply String.eqb_neq in Hs. rewrite Hd. simpl. by rewrite Hs, Hj.
  - intros raw text record Hd Hs Hj. rewrite (read_records_app _ _ _ H). simpl.
    apply String.eqb_neq in Hs. rewrite Hd. simpl. by rewrite Hs, Hj.
Qed.

Lemma fbind_events {A} evs (k : unit -> fprog A) :
  fbind (evs, inr tt) k = (evs ++ (k tt).1, (k tt).2).
Proof. unfold fbind. by destruct (k tt). Qed.

Lemma fbind_value {A B} (a : A) (k : A -> fprog B) : fbind ([], inr a) k = k a.
Proof. unfold fbind. by destruct (k a). Qed.

Lemma fbind_flift_ok {A B} (a : A) (k : A -> fprog B) : fbind (flift (Ok a)) k = k a.
Proof. apply fbind_value. Qed.

Lemma fbind_say {A} l (k : unit -> fprog A) :
  fbind (say l) k = ([Say l] ++ (k tt).1, (k tt).2).
Proof. apply fbind_events. Qed.

(** No argument: the two usage lines and exit code 1, before any
    request. *)
Theorem fetcher_usage w :
  fetcher_main json_loads decode strip [] w
  = (Say <$> fetcher_usage_lines, inl (FetcherExit 1)).
Proof. done. Qed.

(** X20.  With an output file named: the one request goes to the URL given on
    the command line, or to the default one; the output file is written
    only when the download, the extraction and the opening of the file all
    succeeded, and what is written is the extracted mapping; in every other
    case the run ends on the exception, with no file written. *)
Theorem fetcher_writes_only_on_success output_file rest w :
  let api_url := match rest with url :: _ => url | [] => DEFAULT_API_URL end in
  let r := fetcher_main json_loads decode strip (output_file :: rest) w in
  gets r.1 = [api_url]
  /\ match fetch_released_data json_loads decode strip (network w) api_url with
     | Raise e => dumps r.1 = [] /\ r.2 = inl (FetcherRaise e)
     | Ok records =>
         match extract_file_ids json_loads records with
         | Raise e => dumps r.1 = [] /\ r.2 = inl (FetcherRaise e)
         | Ok file_ids =>
             match open_w w output_file with
             | Raise e => dumps r.1 = [] /\ r.2 = inl (FetcherRaise e)
             | Ok _ =>
                 dumps r.1 = [(output_file, file_ids)]
                 /\ r.2 = inr tt
                 /\ last (said r.1) = Some ("Written to: " +:+ output_file)
             end
         end
     end.
Proof.
  intros api_url r. subst r. unfold fetcher_main. fold api_url.
  rewrite fbind_say, fbind_events.
  destruct (fetch_released_data json_loads decode strip (network w) api_url)
    as [records|e]; [|repeat split; reflexivity].
  rewrite fbind_flift_ok, fbind_say.
  destruct (extract_file_ids json_loads records) as [file_ids|e] eqn:Hex;
    [|repeat split; reflexivity].
  pose proof (extract_values_shape _ _ _ Hex) as Hshape.
  rewrite fbind_flift_ok, fbind_say.
  rewrite (count_files_total "nucleotideAlignment" _ (or_introl eq_refl) Hshape).
  rewrite fbind_value.
  rewrite (count_files_total "siloReads" _ (or_intror eq_refl) Hshape).
  rewrite fbind_value, !fbind_say.
  destruct (open_w w output_file) as [[]|e]; [|repeat split; reflexivity].
  rewrite fbind_flift_ok, fbind_events.
  repeat split; reflexivity.
Qed.

End Download.


(* ===================================================================== *)
(** * Further results on the Prefix Deleter *)
(* ===================================================================== *)

(** X21.  Fewer than six arguments: the usage line and exit code 1, before any
    client is built or request made. *)
Theorem prefix_deleter_usage fuel argv w st :
  length argv < 6 ->
  run (delete_s3_files fuel argv w) st = ([Print prefix_usage_line], st, inl (Exit 1)).
Proof.
  intros H. unfold run, delete_s3_files.
  destruct argv as [|b [|p [|a [|s [|e [|rg rest]]]]]];
    try (by rewrite pbind_print).
  simpl in H. lia.
Qed.

Section PrefixDeleterAbort.

Context (bucket prefix : string).

Lemma delete_contents_abort done : forall key later code deleted_count st,
  (forall k, k ∈ done ++ [key] -> k <> "") ->
  (forall objs k, k ∈ done -> refuses st objs bucket k = None) ->
  (forall objs, refuses st objs bucket key = Some code) ->
  exists tr st',
    delete_contents bucket (done ++ key :: later) deleted_count st
    = (tr, st', inl (Uncaught (ClientError code)))
    /\ delete_calls tr = (fun k => (bucket, PStr k)) <$> (done ++ [key])
    /\ printed tr = (fun k => "Deleting: " +:+ k) <$> (done ++ [key])
    /\ (forall o, o ∈ objects st' <->
                  o ∈ objects st /\ o ∉ (fun k => (bucket, k)) <$> done).
Proof.
  induction done as [|k done IH]; intros key later code d st Hne Hok Hbad.
  - simpl app. simpl delete_contents. rewrite pbind_print.
    assert (Hdel : delete_object bucket (PStr key) st
                   = ([DeleteObject bucket (PStr key)], st,
                      inl (Uncaught (ClientError code)))).
    { unfold delete_object.
      rewrite (proj2 (String.eqb_neq key "") (Hne key (list_elem_of_here _ _))).
      by rewrite Hbad. }
    unfold pbind. rewrite Hdel. eexists _, st. unfold prepend. cbn [fst snd].
    split; [reflexivity|]. do 2 (split; [done|]).
    intros o. split; [|by intros [? _]].
    intros H. split; [done|]. by intros ?%elem_of_nil.
  - simpl app. simpl delete_contents. rewrite pbind_print.
    assert (Hdel : delete_object bucket (PStr k) st
                   = ([DeleteObject bucket (PStr k)], remove_object bucket k st, inr tt)).
    { unfold delete_object.
      rewrite (proj2 (String.eqb_neq k "") (Hne k (list_elem_of_here _ _))).
      rewrite Hok; [done|]. apply list_elem_of_here. }
    rewrite (pbind_ok _ _ _ _ _ _ Hdel).
    destruct (IH key later code (S d) (remove_object bucket k st))
      as (tr & st' & -> & Hd & Hp & Hobj).
    { intros k' Hk'. apply Hne. by apply list_elem_of_further. }
    { intros objs k' Hk'. simpl. apply Hok. by apply list_elem_of_further. }
    { intros objs. simpl. apply Hbad. }
    eexists _, st'. unfold prepend. cbn [fst snd].
    split; [reflexivity|]. split; [cbn; f_equal; exact Hd|].
    split; [cbn; f_equal; exact Hp|].
    intros o. rewrite Hobj. cbn [objects remove_object].
    rewrite elem_of_difference, elem_of_singleton, fmap_cons, elem_of_cons. tauto.
Qed.

Lemma delete_pages_abort : forall fuel done key later code token deleted_count st,
  listing st bucket prefix token = done ++ key :: later ->
  length done < fuel ->
  (forall objs k, k ∈ done -> refuses st objs bucket k = None) ->
  (forall objs, refuses st objs bucket key = Some code) ->
  exists tr st',
    delete_pages fuel bucket prefix token deleted_count st
    = (tr, st', inl (Uncaught (ClientError code)))
    /\ delete_calls tr = (fun k => (bucket, PStr k)) <$> (done ++ [key])
    /\ printed tr = (fun k => "Deleting: " +:+ k) <$> (done ++ [key])
    /\ (forall o, o ∈ objects st' <->
                  o ∈ objects st /\ o ∉ (fun k => (bucket, k)) <$> done).
Proof.
  induction fuel as [|fuel IH]; intros done key later code token d st Hl Hfuel Hok Hbad;
    [lia|].
  assert (Hkey : forall k, k ∈ done ++ [key] -> k <> "").
  { intros k Hk.
    assert (Hk' : k ∈ listing st bucket prefix token).
    { rewrite Hl. apply elem_of_app in Hk as [Hk|Hk%list_elem_of_singleton];
        apply elem_of_app; [by left|right; subst k; apply list_elem_of_here]. }
    apply listing_spec in Hk' as [[Hin _] _]. exact (keys_nonempty st _ Hin). }
  simpl delete_pages. rewrite pbind_next_page.
  unfold list_objects_v2. fold (listing st bucket prefix token). rewrite Hl.
  cbn [Contents NextContinuationToken].
  destruct (decide (length done < max_keys st)) as [Hin|Hout].
  - (* the refused key is on this page *)
    assert (Hpage : take (max_keys st) (done ++ key :: later)
                    = done ++ key :: take (max_keys st - S (length done)) later).
    { rewrite take_app. rewrite (take_ge done) by lia.
      replace (max_keys st - length done) with (S (max_keys st - S (length done))) by lia.
      done. }
    rewrite Hpage.
    assert (Hc : match done ++ key :: take (max_keys st - S (length done)) later with
                 | [] => None
                 | _ :: _ => Some (done ++ key :: take (max_keys st - S (length done)) later)
                 end = Some (done ++ key :: take (max_keys st - S (length done)) later))
      by (by destruct done).
    rewrite Hc. clear Hc.
    destruct (delete_contents_abort done key
                (take (max_keys st - S (length done)) later) code d st Hkey Hok Hbad)
      as (tr & st' & Hrun & Hd & Hp & Hobj).
    unfold pbind at 1. rewrite Hrun. eexists _, st'. unfold prepend. cbn [fst snd].
    split; [reflexivity|]. by split; [|split].
  - (* a full page goes first *)
    apply Nat.nlt_ge in Hout.
    assert (Hpage : take (max_keys st) (done ++ key :: later) = take (max_keys st) done)
      by (by rewrite take_app_le).
    rewrite Hpage.
    replace (max_keys st <? length (done ++ key :: later))%nat with true
      by (symmetry; apply Nat.ltb_lt; rewrite length_app; simpl; lia).
    set (pg := take (max_keys st) done). set (more := drop (max_keys st) done).
    assert (Hsplit : done = pg ++ more) by (symmetry; apply take_drop).
    assert (Hlen : length pg = max_keys st) by (by apply length_take_le).
    assert (Hne : pg <> []).
    { intros E. rewrite E in Hlen. unfold max_keys in Hlen. discriminate. }
    destruct (proj2 (last_is_Some pg) Hne) as [last_key Hlast].
    assert (Hc : match pg with [] => None | _ :: _ => Some pg end = Some pg)
      by (by destruct pg).
    rewrite Hc. clear Hc.
    destruct (delete_contents_run bucket pg d st)
      as (tr1 & st1 & Hrun & Hd1 & Hp1 & Hr1 & _ & Hobj1).
    { intros k Hk. apply Hkey. rewrite Hsplit. apply elem_of_app. left.
      apply elem_of_app. by left. }
    { intros objs k Hk. apply Hok. rewrite Hsplit. apply elem_of_app. by left. }
    rewrite (pbind_ok _ _ _ _ _ _ Hrun). rewrite Hlast.
    destruct (IH more key later code (Some last_key) (d + length pg)%nat st1)
      as (tr2 & st2 & Hrun2 & Hd2 & Hp2 & Hobj2).
    { apply (listing_after_page bucket prefix st st1 token pg (more ++ key :: later));
        [|done|done].
      rewrite Hl, Hsplit at 1. by rewrite <- app_assoc. }
    { unfold more. rewrite length_drop. unfold max_keys in *. lia. }
    { intros objs k Hk. rewrite Hr1. apply Hok. rewrite Hsplit. apply elem_of_app. by right. }
    { intros objs. rewrite Hr1. apply Hbad. }
    rewrite Hrun2. eexists _, st2. unfold prepend. cbn [fst snd].
    split; [reflexivity|].
    split.
    { cbn. rewrite delete_calls_app, Hd1, Hd2. rewrite Hsplit at 1.
      rewrite <- (app_assoc pg more [key]). by rewrite (fmap_app _ pg). }
    split.
    { cbn. rewrite printed_app, Hp1, Hp2. rewrite Hsplit at 1.
      rewrite <- (app_assoc pg more [key]). by rewrite (fmap_app _ pg). }
    intros o. rewrite Hobj2, Hobj1. rewrite Hsplit at 1. rewrite fmap_app, elem_of_app.
    tauto.
Qed.

Lemma delete_pages_nothing fuel token deleted_count st :
  listing st bucket prefix token = [] ->
  delete_pages (S fuel) bucket prefix token deleted_count st
  = ([ListObjectsV2 bucket prefix token], st, inr deleted_count).
Proof.
  intros Hl. simpl delete_pages. rewrite pbind_next_page.
  unfold list_objects_v2. fold (listing st bucket prefix token). rewrite Hl.
  cbn [Contents NextContinuationToken]. rewrite take_nil. unfold max_keys.
  cbn [length Nat.ltb Nat.leb]. by rewrite pbind_ret.
Qed.

End PrefixDeleterAbort.

(** X22.  A delete the store refuses ends the Prefix Deleter on the spot: the
    error is not caught, the keys listed before the refused one are gone,
    the refused one and those after it stay, and no count is printed. *)
Theorem prefix_deleter_stops_at_refusal
    fuel w st bucket prefix access_key secret_key endpoint region more_args
    done key later code :
  boto3_client w access_key secret_key endpoint region = Ok tt ->
  keys_under st bucket prefix = done ++ key :: later ->
  (forall objs k, k ∈ done -> refuses st objs bucket k = None) ->
  (forall objs, refuses st objs bucket key = Some code) ->
  length done < fuel ->
  let argv := bucket :: prefix :: access_key :: secret_key :: endpoint :: region
                :: more_args in
  let r := run (delete_s3_files fuel argv w) st in
  status_of r = inl (Uncaught (ClientError code))
  /\ delete_calls (trace_of r) = (fun k => (bucket, PStr k)) <$> (done ++ [key])
  /\ (forall o, o ∈ objects (store_of r) <->
                o ∈ objects st /\ o ∉ (fun k => (bucket, k)) <$> done)
  /\ last (printed (trace_of r)) = Some ("Deleting: " +:+ key).
Proof.
  intros Hclient Hkeys Hok Hbad Hfuel argv r. subst argv r. unfold run, delete_s3_files.
  rewrite pbind_emit, Hclient, pbind_lift_ok.
  destruct (delete_pages_abort bucket prefix fuel done key later code None 0 st)
    as (tr & st' & Hrun & Hd & Hp & Hobj); [by rewrite listing_all|done..|].
  unfold pbind. rewrite Hrun.
  rewrite status_of_prepend, trace_of_prepend, store_of_prepend.
  unfold status_of, trace_of, store_of. cbn [fst snd].
  split; [done|]. split; [by rewrite delete_calls_app, Hd|]. split; [done|].
  rewrite printed_app, Hp. cbn [printed omap app]. rewrite fmap_app. apply last_snoc.
Qed.

(** X23.  Running the Prefix Deleter again after a run that went through finds
    nothing under the prefix: one listing request, no delete call, the
    store as the first run left it, and a count of 0. *)
Theorem prefix_deleter_second_run
    fuel w st bucket prefix access_key secret_key endpoint region more_args :
  boto3_client w access_key secret_key endpoint region = Ok tt ->
  (forall objs k, String.prefix prefix k = true -> refuses st objs bucket k = None) ->
  length (keys_under st bucket prefix) < fuel ->
  let argv := bucket :: prefix :: access_key :: secret_key :: endpoint :: region
                :: more_args in
  let first := run (delete_s3_files fuel argv w) st in
  let second := run (delete_s3_files fuel argv w) (store_of first) in
  status_of first = inr tt
  /\ keys_under (store_of first) bucket prefix = []
  /\ second
     = ([Boto3Client access_key secret_key endpoint region;
         ListObjectsV2 bucket prefix None;
         Print (deleted_line 0 bucket prefix)],
        store_of first, inr tt).
Proof.
  intros Hclient Href Hfuel argv first second. subst argv first second.
  unfold run, delete_s3_files. rewrite !pbind_emit, !Hclient, !pbind_lift_ok.
  destruct (delete_pages_run bucket prefix fuel (keys_under st bucket prefix) None 0 st)
    as (tr & st' & Hrun & _ & _ & Hobj); [apply listing_all|done|done|].
  rewrite (pbind_ok _ _ _ _ _ _ Hrun).
  rewrite !store_of_prepend, !status_of_prepend.
  change (store_of (print (deleted_line (0 + length (keys_under st bucket prefix))
                             bucket prefix) st')) with st'.
  assert (Hempty : keys_under st' bucket prefix = []).
  { apply elem_of_nil_inv. intros k Hk. apply keys_under_spec in Hk as [Hin Hpre].
    apply Hobj in Hin as [Hin Hnot]. apply Hnot, list_elem_of_fmap.
    exists k. split; [done|]. by apply keys_under_spec. }
  split; [done|]. split; [done|].
  destruct fuel as [|fuel]; [lia|].
  rewrite (pbind_ok _ _ _ _ _ _
             (delete_pages_nothing bucket prefix fuel None 0 st'
                ltac:(by rewrite listing_all))).
  reflexivity.
Qed.


(* ===================================================================== *)
(** * The further properties on the sample data *)
(* ===================================================================== *)

Lemma parse_args_loop_app_witness :
  parse_args_loop (sample_argv ++ ["--type"; "siloReads"; "--dry-run"]) [] no_options
  = Some (sample_argv, {| dry_run := true; file_type := Some "siloReads" |}).
Proof.
  rewrite (parse_args_loop_app sample_argv ["--type"; "siloReads"; "--dry-run"]
             [] no_options sample_argv no_options eq_refl).
  reflexivity.
Defined.

Lemma parse_args_positional_witness :
  sublist sample_argv (["--dry-run"] ++ sample_argv ++ ["--type"; "siloReads"])
  /\ Forall (fun a => is_option_token a = false) sample_argv.
Proof.
  destruct (parse_args_positional
              (["--dry-run"] ++ sample_argv ++ ["--type"; "siloReads"]) sample_argv
              {| dry_run := true; file_type := Some "siloReads" |} eq_refl)
    as (H1 & H2 & _).
  by split.
Defined.

Lemma missing_type_value_witness :
  run (main no_str exn_name (sample_argv ++ ["--type"]) (sample_world "DELETE"))
      sample_store
  = ([Print type_error_line], sample_store, inl (Exit 1)).
Proof.
  apply (missing_type_value_exits no_str exn_name (sample_argv ++ ["--type"])
           (sample_world "DELETE") sample_store eq_refl).
Defined.

Lemma too_few_arguments_witness :
  run (main no_str exn_name ["file_ids.json"; "bucket"; "--dry-run"]
         (sample_world "DELETE")) sample_store
  = (Print <$> usage_lines, sample_store, inl (Exit 1)).
Proof.
  apply (too_few_arguments_exits no_str exn_name ["file_ids.json"; "bucket"; "--dry-run"]
           (sample_world "DELETE") sample_store ["file_ids.json"; "bucket"]
           {| dry_run := true; file_type := None |} eq_refl).
  simpl. lia.
Defined.

Lemma nothing_to_delete_witness :
  exists n,
    py_len sample_doc = Ok n
    /\ run (main no_str exn_name (sample_argv ++ ["--type"; ""]) (sample_world "DELETE"))
           sample_store
       = (opening "file_ids.json" n 0 ++ [Print "No files to delete."],
          sample_store, inr tt).
Proof.
  apply (nothing_to_delete_returns no_str exn_name (sample_argv ++ ["--type"; ""])
           (sample_world "DELETE") sample_store
           {| dry_run := false; file_type := Some "" |}
           "file_ids.json" "bucket" "data/" "AK" "SK" "s3.example.org" "us-east-1" []
           sample_doc eq_refl eq_refl eq_refl).
  vm_compute. reflexivity.
Defined.


Lemma no_delete_without_confirmation_witness :
  let r := run (main no_str exn_name sample_argv (sample_world "delete")) sample_store in
  delete_calls (trace_of r) = [] /\ store_of r = sample_store.
Proof.
  apply (no_delete_without_confirmation no_str exn_name sample_argv
           (sample_world "delete") sample_store).
  discriminate.
Defined.

Lemma delete_files_all_succeed_witness :
  let r := delete_files no_str exn_name "bucket" sample_targets 0 0 example_store in
  status_of r = inr (3, 0)
  /\ (forall o, o ∈ objects (store_of r)
                <-> o ∈ objects example_store
                    /\ o ∉ (fun k => ("bucket", k)) <$> ["data/a1"; "data/b1"; "data/b2"]).
Proof.
  apply (delete_files_all_succeed no_str exn_name "bucket" sample_targets
           ["data/a1"; "data/b1"; "data/b2"] example_store eq_refl).
  - repeat constructor; discriminate.
  - intros objs k. reflexivity.
Defined.

Lemma type_filter_witness :
  exists items,
    sample_doc = PDict items
    /\ collect_files_to_delete no_str (PDict items) "data/" (Some "siloReads")
       = Ok [(PStr "S2", "siloReads", PStr "data/b1");
             (PStr "S2", "siloReads", PStr "data/b2")].
Proof.
  eexists. split; [vm_compute; reflexivity|].
  assert (H : collect_files_to_delete no_str
                (PDict [(PStr "S1", PDict [(PStr "nucleotideAlignment", PList [PStr "a1"]);
                                           (PStr "siloReads", PList [])]);
                        (PStr "S2", PDict [(PStr "nucleotideAlignment", PList []);
                                           (PStr "siloReads",
                                            PList [PStr "b1"; PStr "b2"])])])
                "data/" None = Ok sample_targets) by (vm_compute; reflexivity).
  destruct (type_filter_selects no_str _ _ _ H) as (_ & -> & _).
  vm_compute. reflexivity.
Defined.

Lemma other_type_witness :
  collect_files_to_delete no_str
    (PDict [(PStr "S1", PInt 5); (PStr "S2", PNone)]) "data/" (Some "") = Ok [].
Proof.
  apply (other_type_selects_nothing no_str [(PStr "S1", PInt 5); (PStr "S2", PNone)]
           "data/" ""); discriminate.
Defined.

Lemma fetcher_counts_witness :
  extract_file_ids Json.loads sample_records = Ok sample_output
  /\ count_files "nucleotideAlignment" sample_output.*2 = ([], inr 2)
  /\ count_files "siloReads" sample_output.*2 = ([], inr 0).
Proof.
  assert (H : extract_file_ids Json.loads sample_records = Ok sample_output)
    by (vm_compute; reflexivity).
  split; [exact H|].
  exact (fetcher_counts_never_raise Json.loads sample_records sample_output H).
Defined.

Lemma deleter_accepts_witness :
  exists files,
    collect_files_to_delete no_str (PDict sample_output) "data/" None = Ok files
    /\ length files = 2.
Proof.
  assert (H : extract_file_ids Json.loads sample_records = Ok sample_output)
    by (vm_compute; reflexivity).
  exact (deleter_accepts_fetcher_output Json.loads no_str sample_records sample_output
           "data/" H).
Defined.

Lemma output_keys_witness :
  sample_output.*1 = [PStr "S1"; PStr "S2"]
  /\ submission_ids sample_records = [PStr "S1"; PStr "S2"; PStr "S1"].
Proof.
  assert (H : extract_file_ids Json.loads sample_records = Ok sample_output)
    by (vm_compute; reflexivity).
  split; [|vm_compute; reflexivity].
  exact (output_keys_in_first_occurrence_order Json.loads sample_records sample_output H).
Defined.

Lemma blank_lines_witness :
  read_records Json.loads plain_decode ascii_strip sample_response
  = read_records Json.loads plain_decode ascii_strip
      [Ok (sample_line "S1"); Ok (sample_line "S2" +:+ nl)].
Proof.
  apply (blank_lines_are_skipped Json.loads plain_decode ascii_strip
           [Ok (sample_line "S1")] "   " "   " [Ok (sample_line "S2" +:+ nl)]);
    reflexivity.
Defined.

Lemma bad_line_witness :
  read_records Json.loads plain_decode ascii_strip
    ([Ok (sample_line "S1")] ++ Ok "not json" :: [Ok (sample_line "S2")])
  = Raise JSONDecodeError.
Proof.
  assert (H : read_records Json.loads plain_decode ascii_strip [Ok (sample_line "S1")]
              = Ok [metadata_record [("submissionId", PStr "S1");
                                     ("nucleotideAlignment", PStr "[]")]])
    by (vm_compute; reflexivity).
  destruct (bad_line_aborts_the_download Json.loads plain_decode ascii_strip
              _ _ [Ok (sample_line "S2")] H) as (_ & _ & _ & Hbad & _).
  apply (Hbad "not json" "not json" JSONDecodeError);
    [reflexivity | discriminate | vm_compute; reflexivity].
Defined.

Lemma prefix_deleter_usage_witness :
  run (delete_s3_files 3 ["bucket"; "p/"] (sample_world "")) example_store
  = ([Print prefix_usage_line], example_store, inl (Exit 1)).
Proof.
  apply (prefix_deleter_usage 3 ["bucket"; "p/"] (sample_world "") example_store).
  simpl. lia.
Defined.

Lemma prefix_deleter_refusal_witness :
  let r := run (delete_s3_files 3 example_argv (sample_world "")) locked_store in
  status_of r = inl (Uncaught (ClientError "AccessDenied"))
  /\ delete_calls (trace_of r) = [("bucket", PStr "p/1"); ("bucket", PStr "p/2")]
  /\ elements (objects (store_of r))
     = elements ({[ ("bucket", "p/2"); ("bucket", "p/3"); ("bucket", "q/1") ]}
                 : gset (string * string))
  /\ last (printed (trace_of r)) = Some "Deleting: p/2".
Proof.
  assert (Hk : keys_under locked_store "bucket" "p/" = ["p/1"] ++ "p/2" :: ["p/3"])
    by (vm_compute; reflexivity).
  pose proof (prefix_deleter_stops_at_refusal 3 (sample_world "") locked_store
                "bucket" "p/" "AK" "SK" "https://s3.example.org" "us-east-1" []
                ["p/1"] "p/2" ["p/3"] "AccessDenied" eq_refl Hk) as H.
  cbv zeta in H. destruct H as (Hs & Hd & _ & Hlast).
  - intros objs k ->%list_elem_of_singleton. reflexivity.
  - intros objs. reflexivity.
  - simpl. lia.
  - cbv zeta. unfold example_argv. split; [exact Hs|]. split; [exact Hd|].
    split; [vm_compute; reflexivity | exact Hlast].
Defined.

Lemma prefix_deleter_second_run_witness :
  let first := run (delete_s3_files 3 example_argv (sample_world "")) example_store in
  run (delete_s3_files 3 example_argv (sample_world "")) (store_of first)
  = ([Boto3Client "AK" "SK" "https://s3.example.org" "us-east-1";
      ListObjectsV2 "bucket" "p/" None;
      Print (deleted_line 0 "bucket" "p/")],
     store_of first, inr tt).
Proof.
  pose proof (prefix_deleter_second_run 3 (sample_world "") example_store
                "bucket" "p/" "AK" "SK" "https://s3.example.org" "us-east-1" []
                eq_refl (fun _ _ _ => eq_refl)) as H.
  assert (Hfuel : length (keys_under example_store "bucket" "p/") < 3)
    by (vm_compute; lia).
  specialize (H Hfuel). cbv zeta in H. destruct H as (_ & _ & H). exact H.
Defined.

Lemma deletes_stay_in_the_bucket_witness :
  let r := run (main no_str exn_name sample_argv (sample_world "DELETE")) sample_store in
  ("bucket", "keep/me") ∈ objects (store_of r)
  /\ Forall (fun c => c.1 = "bucket") (delete_calls (trace_of r)).
Proof.
  destruct (deletes_stay_in_the_bucket no_str exn_name sample_argv
              (sample_world "DELETE") sample_store) as (Hsub & H).
  destruct (H sample_argv no_options "bucket" ("bucket", "keep/me") eq_refl eq_refl)
    as (Hkeep & Hcalls).
  split; [|exact Hcalls]. vm_compute. reflexivity.
Defined.
